(** * Payload bookkeeping and the hyper-parameter search driver

    A shallow embedding of [metal/mmtl/payload.py] and
    [metal/mmtl/slicing/search.py].

    Python objects that are mutated in place are modelled by explicit state
    passing: a method of [Payload] is a computation over the payload, the
    search driver is a computation over the record of its outside effects
    (trial invocations, report file).  A computation either returns or raises
    a Python exception, and the state it leaves behind is kept in both cases,
    since an exception does not roll back earlier mutations.

    Console output ([print]) is not part of the modelled state. *)

From Stdlib Require Import ZArith Ascii.
From stdpp Require Import gmap strings pretty list fin_maps.

Local Open Scope Z_scope.

(** ** Exceptions and the state-and-exception monad *)

(** The Python exceptions the two files can raise.  [TrialFailure] stands for
    whatever an external collaborator (training entry point, metrics file
    reader, user supplied labelling function) raises. *)
Inductive exn : Type :=
  | AssertionError
  | ValueError (msg : string)
  | Exception (msg : string)
  | KeyError (key : string)
  | TypeError (msg : string)
  | RuntimeError (msg : string)
  | TrialFailure.

Definition Exec (S A : Type) : Type := S → S * (exn + A).

Definition ret {S A} (a : A) : Exec S A := λ s, (s, inr a).

Definition bind {S A B} (c : Exec S A) (k : A → Exec S B) : Exec S B :=
  λ s, match c s with
       | (s', inr a) => k a s'
       | (s', inl e) => (s', inl e)
       end.

Definition raise {S A} (e : exn) : Exec S A := λ s, (s, inl e).
Definition get {S} : Exec S S := λ s, (s, inr s).
Definition modify {S} (f : S → S) : Exec S unit := λ s, (f s, inr tt).

(** A pure fallible step (it reads no state). *)
Definition lift {S A} (r : exn + A) : Exec S A :=
  match r with
  | inl e => raise e
  | inr a => ret a
  end.

Declare Scope exec_scope.
Delimit Scope exec_scope with exec.
Notation "x <- c ;; k" := (bind c (λ x, k))
  (at level 100, c at next level, right associativity) : exec_scope.
Notation "c ;;; k" := (bind c (λ _, k))
  (at level 100, right associativity) : exec_scope.

(** [for x in xs: body x] *)
Fixpoint for_each {S A} (xs : list A) (body : A → Exec S unit) : Exec S unit :=
  match xs with
  | [] => ret tt
  | x :: rest => bind (body x) (λ _, for_each rest body)
  end.

(** The same for pure fallible steps: [[f x for x in xs]]. *)
Fixpoint comprehension {A B} (f : A → exn + B) (xs : list A) : exn + list B :=
  match xs with
  | [] => inr []
  | x :: rest =>
      match f x with
      | inl e => inl e
      | inr y =>
          match comprehension f rest with
          | inl e => inl e
          | inr ys => inr (y :: ys)
          end
      end
  end.

(** ** Tensors and dynamically typed arguments *)

(** What the code observes of a [torch.Tensor]: its shape and its entries in
    row-major order. *)
Record Tensor : Type := mkTensor { shape : list nat; data : list Z }.

#[global] Instance Tensor_eq_dec : EqDecision Tensor.
Proof. solve_decision. Defined.

(** [t.dim()] *)
Definition dim (t : Tensor) : nat := length (shape t).

(** [torch.stack(ts, dim=0)]: the tensors must be there and agree on their
    shape; the result gets a new leading dimension. *)
Definition torch_stack (ts : list Tensor) : exn + Tensor :=
  match ts with
  | [] => inl (RuntimeError "stack expects a non-empty TensorList")
  | t :: rest =>
      if forallb (λ u, bool_decide (shape u = shape t)) rest
      then inr (mkTensor (length ts :: shape t) (concat (map data ts)))
      else inl (RuntimeError "stack expects each tensor to be equal size")
  end.

(** A Python value as [add_label_set] may receive it for [label_list]. *)
#[local] Unset Elimination Schemes.
Inductive PyObj : Type :=
  | PyTensor (t : Tensor)
  | PyInt (z : Z)
  | PyList (l : list PyObj).
#[local] Set Elimination Schemes.

(** [isinstance(o, torch.Tensor)] *)
Definition isinstance_Tensor (o : PyObj) : bool :=
  match o with
  | PyTensor _ => true
  | _ => false
  end.

Module Payload.
Section WithItem.

(** The type of what iterating over the dataset yields. *)
Context {Item : Type}.

(** A Python value as [add_label_set] may receive it for [label_fn]. *)
Inductive PyFn : Type :=
  | Callable (f : Item → exn + Tensor)
  | NotCallable (o : PyObj).

(** Modelled from the spec: [MmtlDataset] of [metal.mmtl.data], of which the
    payload uses the iteration over the items and the attribute [labels],
    "the underlying dataset's label mapping", a dictionary from names to
    label arrays. *)
Record MmtlDataset : Type := mkDataset {
  items : list Item;
  labels : gmap string Tensor
}.

(** Modelled from the spec: [MmtlDataLoader] of [metal.mmtl.data], "an
    opaque handle to a batching/iteration object over a dataset"; the
    payload only follows its attribute [dataset]. *)
Record MmtlDataLoader : Type := mkLoader {
  dataset : MmtlDataset;
  loader_options : list (string * PyObj)
}.

(** [class Payload]: the four attributes set by [__init__].  A task name is
    a string or [None]. *)
Record Payload : Type := mkPayload {
  name : string;
  data_loader : MmtlDataLoader;
  labels_to_tasks : gmap string (option string);
  split : string
}.

(** [self.data_loader.dataset.labels] *)
Definition dataset_labels (p : Payload) : gmap string Tensor :=
  labels (dataset (data_loader p)).

Definition set_dataset_labels (f : gmap string Tensor → gmap string Tensor)
    (p : Payload) : Payload :=
  let dl := data_loader p in
  let ds := dataset dl in
  mkPayload (name p)
            (mkLoader (mkDataset (items ds) (f (labels ds))) (loader_options dl))
            (labels_to_tasks p) (split p).

Definition set_labels_to_tasks
    (f : gmap string (option string) → gmap string (option string))
    (p : Payload) : Payload :=
  mkPayload (name p) (data_loader p) (f (labels_to_tasks p)) (split p).

(** Modelled from the spec: the constructor [MmtlDataset(X, Y)] called by
    [from_tensors], which files the single label tensor under the label-set
    name "labels". *)
Definition MmtlDataset_init (X : list Item) (Y : Tensor) : MmtlDataset :=
  mkDataset X {[ "labels" := Y ]}.

(** [Payload.from_tensors] *)
Definition from_tensors (name : string) (X : list Item) (Y : Tensor)
    (task_name : string) (split : string)
    (data_loader_kwargs : list (string * PyObj)) : Payload :=
  let dataset := MmtlDataset_init X Y in
  let data_loader := mkLoader dataset data_loader_kwargs in
  let labels_to_tasks := {[ "labels" := Some task_name ]} in
  mkPayload name data_loader labels_to_tasks split.

Local Open Scope exec_scope.

(** The label array [add_label_set] computes from its arguments: the
    [if label_fn is not None / elif label_list is not None / else] of the
    method, which reads the payload and does not change it. *)
Definition new_labels_of (p : Payload)
    (label_list : option PyObj) (label_fn : option PyFn) : exn + Tensor :=
  match label_fn with
  | Some fn =>
      match label_list with
      | Some _ => inl AssertionError              (* assert label_list is None *)
      | None =>
          match fn with
          | NotCallable _ => inl AssertionError   (* assert callable(label_fn) *)
          | Callable f =>
              match comprehension f (items (dataset (data_loader p))) with
              | inl e => inl e
              | inr ls => torch_stack ls
              end
          end
      end
  | None =>
      match label_list with
      | Some o =>
          (* assert label_fn is None: holds in this branch *)
          match o with
          | PyTensor t => inr t
          | _ => inl AssertionError   (* assert isinstance(label_list, torch.Tensor) *)
          end
      | None =>
          inl (ValueError "Incorrect label object type -- supply list or function")
      end
  end.

(** [Payload.add_label_set].  With [verbose] the method only prints. *)
Definition add_label_set (task_name label_name : string)
    (label_list : option PyObj) (label_fn : option PyFn) (verbose : bool)
    : Exec Payload unit :=
  self <- get ;;
  new_labels <- lift (new_labels_of self label_list label_fn) ;;
  if (dim new_labels <? 2)%nat
  then raise (Exception "New label_set must have at least two dimensions: [n, ?]")
  else
    modify (set_dataset_labels (insert task_name new_labels)) ;;;
    modify (set_labels_to_tasks (insert label_name (Some task_name))).

(** [d.pop(key)] on the dataset's label mapping *)
Definition labels_pop (key : string) : Exec Payload Tensor :=
  self <- get ;;
  match dataset_labels self !! key with
  | None => raise (KeyError key)
  | Some t => modify (set_dataset_labels (delete key)) ;;; ret t
  end.

(** [self.labels_to_tasks[label_name]] *)
Definition labels_to_tasks_getitem (label_name : string)
    : Exec Payload (option string) :=
  self <- get ;;
  match labels_to_tasks self !! label_name with
  | None => raise (KeyError label_name)
  | Some task => ret task
  end.

(** [Payload.remove_label_set] *)
Definition remove_label_set (label_name : string) (verbose : bool)
    : Exec Payload unit :=
  labels_pop label_name ;;;
  task_name <- labels_to_tasks_getitem label_name ;;
  modify (set_labels_to_tasks (delete label_name)).

(** [Payload._retarget_labelset] *)
Definition _retarget_labelset (label_name : string) (task_name : option string)
    (verbose : bool) : Exec Payload unit :=
  old_task <- labels_to_tasks_getitem label_name ;;
  if bool_decide (old_task ≠ task_name)
  then modify (set_labels_to_tasks (insert label_name task_name))
  else ret tt.

(** lines 120-125: one round of the loop of [remap_labelsets] *)
Definition remap_round (overrides : gmap string (option string))
    (default_none : bool) (verbose : bool) (label_name : string)
    : Exec Payload unit :=
  match overrides !! label_name with
  | Some new_task => _retarget_labelset label_name new_task verbose
  | None =>
      if default_none
      then _retarget_labelset label_name None verbose
      else ret tt
  end.

(** [Payload.remap_labelsets].  The loop runs over the key view of
    [self.labels_to_tasks]; its body assigns to existing keys only, so the
    view it walks is the key list at entry (the order of the walk only shows
    in what is printed). *)
Definition remap_labelsets (overrides : gmap string (option string))
    (default_none : bool) (verbose : bool) : Exec Payload unit :=
  self <- get ;;
  let test_labelsets := (map_to_list (labels_to_tasks self)).*1 in
  for_each test_labelsets (remap_round overrides default_none verbose).

(** The task a label set is left with by one round of that loop. *)
Definition remapped (overrides : gmap string (option string))
    (default_none : bool) (label_name : string) (old_task : option string)
    : option string :=
  match overrides !! label_name with
  | Some new_task => new_task
  | None => if default_none then None else old_task
  end.

(** The two mappings are in lockstep when they have the same names. *)
Definition lockstep (p : Payload) : Prop :=
  dom (dataset_labels p) = dom (labels_to_tasks p).

End WithItem.
Arguments PyFn : clear implicits.
Arguments MmtlDataset : clear implicits.
Arguments MmtlDataLoader : clear implicits.
Arguments Payload : clear implicits.
End Payload.

Module Search.

(** A JSON value, as [json.load] returns it and as the tuner samples it. *)
#[local] Unset Elimination Schemes.
Inductive json : Type :=
  | JNull
  | JBool (b : bool)
  | JNum (z : Z)
  | JStr (s : string)
  | JList (l : list json)
  | JDict (d : list (string * json)).
#[local] Set Elimination Schemes.

(** [isinstance(v, dict)] *)
Definition isinstance_dict (v : json) : bool :=
  match v with
  | JDict _ => true
  | _ => false
  end.

(** *** Python dictionaries in insertion order *)
Section Dict.
Context {K V : Type} `{EqDecision K}.

(** [d[k]], [None] standing for the [KeyError] *)
Fixpoint dict_get (d : list (K * V)) (k : K) : option V :=
  match d with
  | [] => None
  | (k', v) :: rest => if decide (k' = k) then Some v else dict_get rest k
  end.

(** [k in d] *)
Definition dict_contains (d : list (K * V)) (k : K) : bool :=
  bool_decide (is_Some (dict_get d k)).

(** [d[k] = v]: an existing key keeps its place, a new one goes last. *)
Fixpoint dict_set (d : list (K * V)) (k : K) (v : V) : list (K * V) :=
  match d with
  | [] => [(k, v)]
  | (k', v') :: rest =>
      if decide (k' = k) then (k', v) :: rest else (k', v') :: dict_set rest k v
  end.

(** [d.update(other)] *)
Definition dict_update (d other : list (K * V)) : list (K * V) :=
  foldl (λ acc kv, dict_set acc kv.1 kv.2) d other.

(** [d.keys()] *)
Definition dict_keys (d : list (K * V)) : list K := d.*1.
End Dict.

Abbreviation conf := (list (string * json)).
Abbreviation metrics := (gmap string Z).
(** keys of [config_to_metrics]: [(metrics_path, str(search_conf))] *)
Abbreviation path_config := (string * string)%type.
Abbreviation collection := (list (path_config * metrics)).

(** [--search_metric_mode], restricted by [choices=["max", "min"]] *)
Inductive metric_mode : Type := ModeMax | ModeMin.

(** The parsed command line. *)
Record Args : Type := mkArgs {
  max_search : option Z;
  search_metric : option string;
  search_metric_mode : metric_mode;
  config : string;
  device : option string
}.

(** The content of the configuration file. *)
Record SearchConfig : Type := mkSearchConfig {
  search_space : option conf;
  fixed_args : option conf
}.

(** Truth value of an optional string: [None] and [""] are false. *)
Definition truthy_str (o : option string) : bool :=
  match o with
  | Some s => bool_decide (s ≠ "")
  | None => false
  end.

(** Truth value of [best_metric]: [None] and [0] are false. *)
Definition truthy_num (o : option Z) : bool :=
  match o with
  | Some z => bool_decide (z ≠ 0)
  | None => false
  end.

(** Python's [max(a, b)] and [min(a, b)]: the first argument is kept unless
    the second is strictly better. *)
Definition py_max (a b : Z) : Z := if a <? b then b else a.
Definition py_min (a b : Z) : Z := if b <? a then b else a.

(** [metric_fns[args.search_metric_mode]] *)
Definition metric_fns (mode : metric_mode) : Z → Z → Z :=
  match mode with
  | ModeMax => py_max
  | ModeMin => py_min
  end.

(** [a] is at least as good as [b]: not smaller under "max", not larger
    under "min". *)
Definition at_least_as_good (mode : metric_mode) (a b : Z) : Prop :=
  match mode with
  | ModeMax => b ≤ a
  | ModeMin => a ≤ b
  end.

(** [metrics[args.search_metric]] *)
Definition metrics_getitem (m : metrics) (key : string) : exn + Z :=
  match m !! key with
  | Some v => inr v
  | None => inl (KeyError key)
  end.

(** One round of the loop of lines 59-72 on the pair
    [(best_path_config, best_metric)]. *)
Definition scan_step (args : Args)
    (best : option path_config * option Z) (entry : path_config * metrics)
    : exn + (option path_config * option Z) :=
  let '(best_path_config, best_metric) := best in
  let '(path_config, metrics) := entry in
  if truthy_str (search_metric args) then
    let metric_cmp := metric_fns (search_metric_mode args) in
    let key := default "" (search_metric args) in
    if negb (truthy_num best_metric) then
      (* no metrics set, pick the current one *)
      match metrics_getitem metrics key with
      | inl e => inl e
      | inr v => inr (Some path_config, Some v)
      end
    else
      (* compare to previous metrics *)
      match metrics_getitem metrics key with
      | inl e => inl e
      | inr curr_metric =>
          if bool_decide
               (metric_cmp curr_metric (default 0 best_metric) = curr_metric)
          then inr (Some path_config, Some curr_metric)
          else inr best
      end
  else inr best.

Fixpoint scan_from (args : Args) (best : option path_config * option Z)
    (config_to_metrics : collection) : exn + (option path_config * option Z) :=
  match config_to_metrics with
  | [] => inr best
  | entry :: rest =>
      match scan_step args best entry with
      | inl e => inl e
      | inr best' => scan_from args best' rest
      end
  end.

(** The best-selection scan, lines 53-72. *)
Definition scan (args : Args) (config_to_metrics : collection)
    : exn + (option path_config * option Z) :=
  scan_from args (None, None) config_to_metrics.

(** [str(best_metric)] *)
Definition str_metric (o : option Z) : string :=
  match o with
  | Some z => pretty z
  | None => "None"
  end.

Definition newline : string := String "010"%char "".

(** What the driver gets from outside: the tuner, the training entry point,
    the file system, the clock and the string conversions of Python. *)
Record Env : Type := mkEnv {
(** [tuner.config_generator(search_space, max_search, tuner.rng, True)],
    the random source being seeded with 123 *)
config_generator : conf → option Z → list conf;
(** [str(v)] *)
py_str : json → string;
(** [json.dumps(v)] *)
json_dumps : json → string;
(** [launch(parser.parse_args(arg_list))] of the trial that follows the
    given number of earlier ones: the metrics path, or a failure *)
launch : nat → list string → exn + string;
(** [json.load(open(metrics_path, "r"))] after that trial *)
load_metrics : nat → string → exn + metrics;
(** [pprint.pprint(config_to_metrics, f)], as the text written *)
pprint : collection → string;
(** [datetime.datetime.now().strftime("%Y-%m-%d_%H:%M:%S")] *)
now_str : string;
(** [os.path.basename] *)
basename : string → string
}.

(** The local dictionary of [main] and its effects outside the process. *)
Record Run : Type := mkRun {
  config_to_metrics : collection;
  launched : list (list string);
  written : list (string * string)
}.

Definition initial : Run := mkRun [] [] [].

Section Driver.
Variable env : Env.
Local Open Scope exec_scope.

(** lines 36-41: the flag/value tokens of one trial.  [str] of the string
    that [json.dumps] returned is that string. *)
Definition arg_list_of (full_conf : conf) : list string :=
  flat_map (λ kv, ["--" +:+ kv.1;
                   if isinstance_dict kv.2
                   then json_dumps env kv.2
                   else py_str env kv.2])
           full_conf.

(** lines 47-49 *)
Definition do_launch (arg_list : list string) : Exec Run string :=
  s <- get ;;
  modify (λ s, mkRun (config_to_metrics s) (launched s ++ [arg_list]) (written s)) ;;;
  lift (launch env (length (launched s)) arg_list).

(** line 50 *)
Definition do_load (metrics_path : string) : Exec Run metrics :=
  s <- get ;;
  lift (load_metrics env (length (launched s) - 1)%nat metrics_path).

(** lines 28-51: the body of the trial loop *)
Definition trial (args : Args) (fixed_args : conf) (search_conf : conf)
    : Exec Run unit :=
  let full_conf := dict_update [] search_conf in
  if existsb (λ k, dict_contains full_conf k) (dict_keys fixed_args)
  then raise (ValueError "Fixed arg shows up in search space.")
  else
    let full_conf := dict_update full_conf fixed_args in
    let full_conf :=
      if truthy_str (device args)
      then dict_update full_conf [("device", JStr (default "" (device args)))]
      else full_conf in
    let arg_list := arg_list_of full_conf in
    metrics_path <- do_launch arg_list ;;
    metrics_dict <- do_load metrics_path ;;
    modify (λ s, mkRun (dict_set (config_to_metrics s)
                                 (metrics_path, py_str env (JDict search_conf))
                                 metrics_dict)
                       (launched s) (written s)).

(** lines 84-89: what is written to the report file *)
Definition report (args : Args) (best_path best_config : string)
    (best_metric : option Z) (c2m : collection) : string :=
  (if truthy_str (search_metric args)
   then "Path: " +:+ best_path +:+ newline
        +:+ "Config: {best_config}" +:+ newline
        +:+ default "" (search_metric args) +:+ ": "
        +:+ str_metric best_metric +:+ newline
   else "")
  +:+ pprint env c2m.

(** [main(args)], the configuration file being read as [search_config] *)
Definition main (args : Args) (search_config : SearchConfig) : Exec Run unit :=
  match search_space search_config, fixed_args search_config with
  | Some search_space, Some fixed_args =>
      let configs := config_generator env search_space (max_search args) in
      for_each configs (trial args fixed_args) ;;;
      s <- get ;;
      best <- lift (scan args (config_to_metrics s)) ;;
      let '(best_path_config, best_metric) := best in
      match best_path_config with
      | None => raise (TypeError "cannot unpack non-iterable NoneType object")
      | Some (best_path, best_config) =>
          let save_path :=
            now_str env +:+ "_" +:+ basename env (config args) +:+ ".txt" in
          modify (λ s, mkRun (config_to_metrics s) (launched s)
                             (written s ++
                                [(save_path,
                                  report args best_path best_config best_metric
                                         (config_to_metrics s))]))
      end
  | _, _ => raise AssertionError
  end.
End Driver.

(** Modelled from the spec: the configuration generator of
    [metal.tuners.random_tuner.RandomSearchTuner], "exhaustive enumeration
    of discrete combinations", "count bounded by max_search if given".  A
    search-space entry is "either a fixed value or a specification of
    candidate values", here a JSON list of the candidates.  The shuffling
    of the combinations is left out. *)
Definition choices (v : json) : list json :=
  match v with
  | JList vs => vs
  | _ => [v]
  end.

Fixpoint dict_product (search_space : conf) : list conf :=
  match search_space with
  | [] => [[]]
  | (k, v) :: rest =>
      flat_map (λ x, map (λ c, (k, x) :: c) (dict_product rest)) (choices v)
  end.

Definition grid_generator (search_space : conf) (max_search : option Z)
    : list conf :=
  match max_search with
  | Some n => if bool_decide (n ≠ 0) then take (Z.to_nat n) (dict_product search_space)
              else dict_product search_space
  | None => dict_product search_space
  end.

End Search.

(** ** Parts of the trial loop, named for the statements about it *)
Module SearchParts.
Import Search.

(** line 30: [any([k in full_conf for k in fixed_args.keys()])], [full_conf]
    holding the candidate *)
Definition overlaps (fixed_args search_conf : conf) : bool :=
  existsb (λ k, dict_contains (dict_update [] search_conf) k)
          (dict_keys fixed_args).

(** lines 28-34: [full_conf] as it is when the argument list is built *)
Definition full_conf_of (args : Args) (fixed_args search_conf : conf) : conf :=
  let full_conf := dict_update [] search_conf in
  let full_conf := dict_update full_conf fixed_args in
  if truthy_str (device args)
  then dict_update full_conf [("device", JStr (default "" (device args)))]
  else full_conf.

(** lines 36-41: the argument list of the trial of a candidate *)
Definition arg_list_for (env : Env) (args : Args)
    (fixed_args search_conf : conf) : list string :=
  arg_list_of env (full_conf_of args fixed_args search_conf).

(** line 51: the key under which a trial is filed *)
Definition key_of (env : Env) (metrics_path : string) (search_conf : conf)
    : string * string :=
  (metrics_path, py_str env (JDict search_conf)).

End SearchParts.

(** ** Concrete payloads and runs used in the examples below *)
Module Fixtures.
Import Payload.

(** two label arrays of shape [2, 1] and one of shape [2] *)
Definition Y0 : Tensor := mkTensor [2; 1]%nat [1; 0].
Definition Y1 : Tensor := mkTensor [2; 1]%nat [0; 1].
Definition Yflat : Tensor := mkTensor [2]%nat [1; 0].

(** [Payload("P", loader, {"a": "T1"}, "train")], the loader being over a
    dataset of two items whose label mapping is [{"a": Y0}] *)
Definition P0 : Payload Z :=
  mkPayload "P" (mkLoader (mkDataset [10; 20] {[ "a" := Y0 ]}) [])
            {[ "a" := Some "T1" ]} "train".

Import Search.

(** A plain rendering of JSON values, standing for [str] and [json.dumps]. *)
Fixpoint show (v : json) : string :=
  match v with
  | JNull => "None"
  | JBool b => if b then "True" else "False"
  | JNum z => pretty z
  | JStr s => s
  | JList l => "[" +:+ String.concat ", " (map show l) +:+ "]"
  | JDict d =>
      "{" +:+ String.concat ", "
                (map (λ kv, match kv with
                            | (k, x) => "'" +:+ k +:+ "': " +:+ show x
                            end) d)
          +:+ "}"
  end.

(** The metrics file of the n-th trial holds the n-th of these values for
    the metric "A". *)
Definition metrics_of (values : list Z) (n : nat) : metrics :=
  match values !! n with
  | Some v => {[ "A" := v ]}
  | None => ∅
  end.

(** An environment in which the tuner enumerates the grid, every trial
    returns, and the n-th trial reports the n-th of [values]. *)
Definition env_with (values : list Z) : Env :=
  mkEnv grid_generator show show
        (λ n _, inr ("run" +:+ pretty n +:+ "/metrics.json"))
        (λ n _, inr (metrics_of values n))
        (λ c2m, String.concat newline
                  (map (λ e, e.1.1 +:+ " " +:+ e.1.2 +:+ " "
                             +:+ str_metric (e.2 !! "A")) c2m))
        "2019-05-01_12:00:00"
        (λ path, path).

(** The collection after trials that returned these values of "A". *)
Definition collected (values : list Z) : collection :=
  imap (λ n v, (("run" +:+ pretty n +:+ "/metrics.json",
                 "{'x': " +:+ pretty (S n) +:+ "}"),
                {[ "A" := v ]})) values.

Definition args_with (search_metric : option string) (mode : metric_mode)
    : Args :=
  mkArgs None search_metric mode "config.json" None.

(** [{"search_space": {"x": [1, 2, 3]}, "fixed_args": {"bs": 32}}] *)
Definition config_x : SearchConfig :=
  mkSearchConfig (Some [("x", JList [JNum 1; JNum 2; JNum 3])])
                 (Some [("bs", JNum 32)]).


(** [{"search_space": {"lr": []}, "fixed_args": {"lr": 3}}] *)
Definition config_overlap_empty : SearchConfig :=
  mkSearchConfig (Some [("lr", JList [])]) (Some [("lr", JNum 3)]).

(** Labelling functions over the items of [P0]: a label of shape [1] per
    item, a scalar per item, and one that raises on the item 20. *)
Definition label_row (x : Z) : exn + Tensor := inr (mkTensor [1]%nat [x]).
Definition label_scalar (x : Z) : exn + Tensor := inr (mkTensor []%nat [x]).
Definition label_raising (x : Z) : exn + Tensor :=
  if bool_decide (x = 20) then inl TrialFailure else inr (mkTensor [1]%nat [x]).

(** A payload whose dataset has labels "b" that [labels_to_tasks] does not
    know. *)
Definition P_unmapped : Payload Z :=
  mkPayload "P" (mkLoader (mkDataset [10; 20] {[ "a" := Y0; "b" := Y1 ]}) [])
            {[ "a" := Some "T1" ]} "train".

(** An environment like [env_with], in which the trial after [k] earlier
    ones fails. *)
Definition env_failing_at (k : nat) (values : list Z) : Env :=
  mkEnv grid_generator show show
        (λ n _, if bool_decide (n = k) then inl TrialFailure
                else inr ("run" +:+ pretty n +:+ "/metrics.json"))
        (λ n _, inr (metrics_of values n))
        (λ c2m, "")
        "2019-05-01_12:00:00"
        (λ path, path).

Definition args_on_device (device : string) : Args :=
  mkArgs None (Some "A") ModeMax "config.json" (Some device).
End Fixtures.

(** ** Facts about [Payload] *)
Module PayloadSpec.
Import Payload.
Section WithItem.
Context {Item : Type}.
Implicit Types (p : Payload Item) (t : Tensor).

(** *** How the methods run *)

Lemma add_label_set_run p task_name label_name label_list label_fn verbose :
  add_label_set task_name label_name label_list label_fn verbose p =
  match new_labels_of p label_list label_fn with
  | inl e => (p, inl e)
  | inr t =>
      if (dim t <? 2)%nat
      then (p, inl (Exception "New label_set must have at least two dimensions: [n, ?]"))
      else (set_labels_to_tasks (insert label_name (Some task_name))
              (set_dataset_labels (insert task_name t) p), inr tt)
  end.
Proof.
  unfold add_label_set, bind, get, lift; simpl.
  destruct (new_labels_of p label_list label_fn) as [e|t]; [done|].
  simpl. by destruct (dim t <? 2)%nat.
Qed.

Lemma remove_label_set_run p label_name verbose :
  remove_label_set label_name verbose p =
  match dataset_labels p !! label_name with
  | None => (p, inl (KeyError label_name))
  | Some _ =>
      let p1 := set_dataset_labels (delete label_name) p in
      match labels_to_tasks p !! label_name with
      | None => (p1, inl (KeyError label_name))
      | Some _ => (set_labels_to_tasks (delete label_name) p1, inr tt)
      end
  end.
Proof.
  unfold remove_label_set, labels_pop, labels_to_tasks_getitem, bind, get; simpl.
  destruct (dataset_labels p !! label_name) as [t|]; [|done].
  simpl. by destruct (labels_to_tasks p !! label_name).
Qed.

Lemma _retarget_labelset_run p label_name task_name verbose old_task :
  labels_to_tasks p !! label_name = Some old_task →
  _retarget_labelset label_name task_name verbose p =
  (set_labels_to_tasks (insert label_name task_name) p, inr tt).
Proof.
  intros Hold.
  unfold _retarget_labelset, labels_to_tasks_getitem, bind, get; simpl.
  rewrite Hold. simpl. case_bool_decide as Hne; [done|].
  subst task_name.
  unfold ret, set_labels_to_tasks. rewrite insert_id by done.
  by destruct p.
Qed.

Lemma remap_body_run p overrides default_none verbose label_name old_task :
  labels_to_tasks p !! label_name = Some old_task →
  remap_round overrides default_none verbose label_name p =
  (set_labels_to_tasks
     (insert label_name (remapped overrides default_none label_name old_task)) p,
   inr tt).
Proof.
  intros Hold. unfold remap_round, remapped.
  destruct (overrides !! label_name) as [new_task|].
  - by apply _retarget_labelset_run with old_task.
  - destruct default_none.
    + by apply _retarget_labelset_run with old_task.
    + unfold ret, set_labels_to_tasks. rewrite insert_id by done. by destruct p.
Qed.

(** The loop of [remap_labelsets] over a duplicate-free list of present
    names: it never raises, and it retargets exactly the names it walks. *)
Lemma remap_loop_run overrides default_none verbose (names : list string) :
  ∀ p, NoDup names →
    (∀ k, k ∈ names → is_Some (labels_to_tasks p !! k)) →
    ∃ m, for_each names (remap_round overrides default_none verbose) p
         = (set_labels_to_tasks (λ _, m) p, inr tt)
         ∧ ∀ k, m !! k =
                if decide (k ∈ names)
                then remapped overrides default_none k <$> labels_to_tasks p !! k
                else labels_to_tasks p !! k.
Proof.
  induction names as [|n names IH]; intros p Hnd Hin.
  - exists (labels_to_tasks p). split; [by destruct p|].
    intros k. by rewrite decide_False by set_solver.
  - apply NoDup_cons in Hnd as [Hn Hnd].
    destruct (Hin n) as [old Hold]; [set_solver|].
    simpl. unfold bind.
    rewrite (remap_body_run p overrides default_none verbose n old Hold).
    set (p1 := set_labels_to_tasks _ p).
    destruct (IH p1 Hnd) as (m & Hrun & Hm).
    { intros k Hk. subst p1. simpl.
      destruct (decide (n = k)) as [->|Hne]; [by rewrite lookup_insert_eq|].
      rewrite lookup_insert_ne by done. apply Hin. set_solver. }
    exists m. split; [by rewrite Hrun|].
    intros k. rewrite Hm. subst p1. simpl.
    destruct (decide (n = k)) as [->|Hne].
    + rewrite decide_False by done. rewrite decide_True by set_solver.
      by rewrite lookup_insert_eq, Hold.
    + rewrite lookup_insert_ne by done.
      destruct (decide (k ∈ names)).
      * rewrite decide_True; [done | set_solver].
      * rewrite decide_False; [done | set_solver].
Qed.

Lemma remap_labelsets_run p overrides default_none verbose :
  remap_labelsets overrides default_none verbose p =
  (set_labels_to_tasks
     (map_imap (λ k old, Some (remapped overrides default_none k old))) p,
   inr tt).
Proof.
  unfold remap_labelsets, bind, get; simpl.
  destruct (remap_loop_run overrides default_none verbose
              (map_to_list (labels_to_tasks p)).*1 p) as (m & Hrun & Hm).
  { apply NoDup_fst_map_to_list. }
  { intros k Hk. apply list_elem_of_fmap in Hk as ([k' v] & -> & Hkv).
    apply elem_of_map_to_list in Hkv. by exists v. }
  rewrite Hrun. f_equal. unfold set_labels_to_tasks. f_equal.
  apply map_eq. intros k. rewrite Hm, map_lookup_imap.
  destruct (labels_to_tasks p !! k) as [old|] eqn:Hk; simpl.
  - rewrite decide_True; [done|].
    apply list_elem_of_fmap. exists (k, old). split; [done|].
    by apply elem_of_map_to_list.
  - by destruct (decide _).
Qed.

(** *** Argument checks of [add_label_set] *)

(** C8: with both [label_list] and [label_fn] given the call raises (the
    assertion [label_list is None] fails), with neither it raises the
    [ValueError]; in both cases the payload is left as it was.  A call that
    returns was given exactly one of the two. *)
Theorem add_label_set_exactly_one p task_name label_name verbose :
  (∀ o fn, add_label_set task_name label_name (Some o) (Some fn) verbose p
           = (p, inl AssertionError))
  ∧ add_label_set task_name label_name None None verbose p
    = (p, inl (ValueError "Incorrect label object type -- supply list or function"))
  ∧ (∀ label_list label_fn p',
       add_label_set task_name label_name label_list label_fn verbose p
       = (p', inr tt) →
       (is_Some label_list ∧ label_fn = None)
       ∨ (label_list = None ∧ is_Some label_fn)).
Proof.
  split; [|split].
  - intros o fn. by rewrite add_label_set_run.
  - by rewrite add_label_set_run.
  - intros label_list label_fn p'. rewrite add_label_set_run.
    destruct label_list as [o|], label_fn as [fn|]; simpl; try discriminate.
    + intros _. left. split; [by eexists | done].
    + intros _. right. split; [done | by eexists].
Qed.

(** C9: once the label array is there, the call raises when it has fewer
    than two dimensions, leaving the payload as it was, and otherwise
    returns, having stored the array and the task name. *)
Theorem add_label_set_two_dimensions
    p task_name label_name label_list label_fn verbose t :
  new_labels_of p label_list label_fn = inr t →
  ((dim t < 2)%nat →
     add_label_set task_name label_name label_list label_fn verbose p
     = (p, inl (Exception "New label_set must have at least two dimensions: [n, ?]")))
  ∧ ((2 ≤ dim t)%nat →
     add_label_set task_name label_name label_list label_fn verbose p
     = (set_labels_to_tasks (insert label_name (Some task_name))
          (set_dataset_labels (insert task_name t) p), inr tt)).
Proof.
  intros Hnew. rewrite add_label_set_run, Hnew. split; intros Hdim.
  - by apply Nat.ltb_lt in Hdim as ->.
  - by apply Nat.ltb_ge in Hdim as ->.
Qed.

(** C10: a [label_list] that is not a tensor makes the call raise (the
    assertion [isinstance(label_list, torch.Tensor)] fails) before anything
    is stored. *)
Theorem add_label_set_rejects_non_tensor p task_name label_name o verbose :
  isinstance_Tensor o = false →
  add_label_set task_name label_name (Some o) None verbose p
  = (p, inl AssertionError).
Proof.
  intros Hno. rewrite add_label_set_run. by destruct o.
Qed.

(** *** Remapping *)

(** C7: [remap_labelsets({}, default_none=True)] returns with every label
    set mapped to [None]; [remap_labelsets(overrides)] returns, leaves the
    data loader alone, gives every listed label set that exists its new
    task and leaves every other entry of [labels_to_tasks] as it was. *)
Theorem remap_labelsets_frame p verbose :
  remap_labelsets ∅ true verbose p
  = (set_labels_to_tasks (fmap (λ _, None)) p, inr tt)
  ∧ ∀ overrides, ∃ p',
      remap_labelsets overrides false verbose p = (p', inr tt)
      ∧ name p' = name p ∧ data_loader p' = data_loader p ∧ split p' = split p
      ∧ ∀ k, labels_to_tasks p' !! k =
             match overrides !! k with
             | Some new_task => (λ _, new_task) <$> labels_to_tasks p !! k
             | None => labels_to_tasks p !! k
             end.
Proof.
  split.
  - rewrite remap_labelsets_run. f_equal. unfold set_labels_to_tasks. f_equal.
    apply map_eq. intros k. rewrite map_lookup_imap, lookup_fmap.
    by destruct (labels_to_tasks p !! k).
  - intros overrides. eexists. split; [apply remap_labelsets_run|].
    repeat split. intros k. simpl. rewrite map_lookup_imap. unfold remapped.
    destruct (labels_to_tasks p !! k), (overrides !! k); done.
Qed.

(** *** Lockstep of the two mappings *)

Lemma remove_label_set_lockstep p p' label_name verbose :
  lockstep p →
  remove_label_set label_name verbose p = (p', inr tt) →
  lockstep p'.
Proof.
  unfold lockstep. intros Hp. rewrite remove_label_set_run.
  destruct (dataset_labels p !! label_name); [|discriminate].
  simpl. destruct (labels_to_tasks p !! label_name); [|discriminate].
  intros [= <-]. unfold dataset_labels in *. simpl.
  by rewrite !dom_delete_L, Hp.
Qed.

Lemma remap_labelsets_lockstep p p' overrides default_none verbose :
  lockstep p →
  remap_labelsets overrides default_none verbose p = (p', inr tt) →
  lockstep p'.
Proof.
  unfold lockstep. intros Hp. rewrite remap_labelsets_run. intros [= <-].
  unfold dataset_labels in *. simpl. rewrite Hp.
  apply set_eq. intros k. rewrite !elem_of_dom, map_lookup_imap.
  by destruct (labels_to_tasks p !! k); simpl; rewrite <- ?not_eq_None_Some.
Qed.

Lemma add_label_set_lockstep_same_name p p' label_name label_list label_fn verbose :
  lockstep p →
  add_label_set label_name label_name label_list label_fn verbose p = (p', inr tt) →
  lockstep p'.
Proof.
  unfold lockstep. intros Hp. rewrite add_label_set_run.
  destruct (new_labels_of p label_list label_fn) as [e|t]; [discriminate|].
  destruct (dim t <? 2)%nat; [discriminate|].
  intros [= <-]. unfold dataset_labels in *. simpl.
  by rewrite !dom_insert_L, Hp.
Qed.

(** *** Adding and removing *)

(** C2, as amended: when the name is new to both mappings and the labels
    are added under that same name as task name, [add_label_set] followed by
    [remove_label_set] returns and leaves the payload as it was before. *)
Theorem add_remove_round_trip_fresh
    p p1 label_name label_list label_fn verbose verbose' :
  dataset_labels p !! label_name = None →
  labels_to_tasks p !! label_name = None →
  add_label_set label_name label_name label_list label_fn verbose p = (p1, inr tt) →
  remove_label_set label_name verbose' p1 = (p, inr tt).
Proof.
  intros Hlab Hl2t. rewrite add_label_set_run.
  destruct (new_labels_of p label_list label_fn) as [e|t]; [discriminate|].
  destruct (dim t <? 2)%nat; [discriminate|].
  intros [= <-]. rewrite remove_label_set_run.
  unfold dataset_labels in *. simpl. rewrite !lookup_insert_eq. simpl.
  unfold set_labels_to_tasks, set_dataset_labels. simpl.
  rewrite !delete_insert_id by done.
  by destruct p as [? [[? ?] ?] ? ?].
Qed.
End WithItem.

Import Fixtures.
Local Open Scope string_scope.

Lemma add_label_set_exactly_one_witness :
  (is_Some (Some (PyTensor Y1)) ∧ (None : option (PyFn Z)) = None)
  ∨ (Some (PyTensor Y1) = None ∧ is_Some (None : option (PyFn Z))).
Proof.
  eapply (add_label_set_exactly_one P0 "T2" "extra" true).
  rewrite add_label_set_run. reflexivity.
Defined.

Lemma add_label_set_two_dimensions_witness :
  add_label_set "T2" "extra" (Some (PyTensor Yflat)) None true P0
  = (P0, inl (Exception "New label_set must have at least two dimensions: [n, ?]"))
  ∧ add_label_set "T2" "extra" (Some (PyTensor Y1)) None true P0
    = (set_labels_to_tasks (insert "extra" (Some "T2"))
         (set_dataset_labels (insert "T2" Y1) P0), inr tt).
Proof.
  split.
  - apply (add_label_set_two_dimensions P0 "T2" "extra"
             (Some (PyTensor Yflat)) None true Yflat); [reflexivity|].
    unfold dim, Yflat; simpl; lia.
  - apply (add_label_set_two_dimensions P0 "T2" "extra"
             (Some (PyTensor Y1)) None true Y1); [reflexivity|].
    unfold dim, Y1; simpl; lia.
Defined.

Lemma add_label_set_rejects_non_tensor_witness :
  add_label_set "T2" "extra" (Some (PyList [PyInt 0; PyInt 1])) None true P0
  = (P0, inl AssertionError).
Proof.
  apply (add_label_set_rejects_non_tensor P0 "T2" "extra"). reflexivity.
Defined.

(** C2, counterexample: label set "a" of [P0] is given new labels and then
    removed; both calls return, and neither mapping is what it was. *)
Lemma add_remove_not_round_trip :
  ∃ p1 p2,
    add_label_set "T1" "a" (Some (PyTensor Y1)) None true P0 = (p1, inr tt)
    ∧ remove_label_set "a" true p1 = (p2, inr tt)
    ∧ labels_to_tasks p2 ≠ labels_to_tasks P0
    ∧ dataset_labels p2 ≠ dataset_labels P0.
Proof.
  eexists _, _. split; [by rewrite add_label_set_run|].
  split; [by rewrite remove_label_set_run|].
  split; intros Heq; apply (f_equal (λ m, m !! "a")) in Heq; discriminate Heq.
Qed.

Lemma add_remove_round_trip_fresh_witness :
  remove_label_set "b" true
    (set_labels_to_tasks (insert "b" (Some "b"))
       (set_dataset_labels (insert "b" Y1) P0))
  = (P0, inr tt).
Proof.
  apply (add_remove_round_trip_fresh P0 _ "b" (Some (PyTensor Y1)) None true true).
  - reflexivity.
  - reflexivity.
  - rewrite add_label_set_run. reflexivity.
Defined.

(** With a task name other than the label-set name the labels just added
    cannot be removed: they were stored under the task name. *)
Example add_then_remove_raises :
  ∃ p1, add_label_set "T2" "b" (Some (PyTensor Y1)) None true P0 = (p1, inr tt)
        ∧ remove_label_set "b" true p1 = (p1, inl (KeyError "b")).
Proof.
  eexists. split; [by rewrite add_label_set_run|].
  by rewrite remove_label_set_run.
Qed.


(** The payloads built by [from_tensors] have their mappings in lockstep. *)
Example from_tensors_lockstep (X : list Z) Y task_name :
  lockstep (from_tensors "P" X Y task_name "train" []).
Proof.
  unfold lockstep, dataset_labels. simpl. by rewrite !dom_singleton_L.
Qed.

(** [remap_labelsets({"a": "T2"})] on a payload with label sets "a" and
    "c". *)
Example remap_one_of_two :
  ∃ p', remap_labelsets {[ "a" := Some "T2" ]} false true
          (set_labels_to_tasks (insert "c" (Some "T3")) P0) = (p', inr tt)
        ∧ labels_to_tasks p' !! "a" = Some (Some "T2")
        ∧ labels_to_tasks p' !! "c" = Some (Some "T3")
        ∧ dataset_labels p' = dataset_labels P0.
Proof.
  eexists. split; [apply remap_labelsets_run|]. by repeat split.
Qed.
End PayloadSpec.

(** ** Facts about the search driver *)
Module SearchSpec.
Import Search.

(** *** Dictionaries *)
Section Dict.
Context {K V : Type} `{EqDecision K}.
Implicit Types (d other : list (K * V)).

Lemma dict_get_set d k v k' :
  dict_get (dict_set d k v) k' = if decide (k = k') then Some v else dict_get d k'.
Proof.
  induction d as [|[k0 v0] d IH]; simpl.
  - by destruct (decide (k = k')).
  - destruct (decide (k0 = k)) as [->|Hne]; simpl.
    + by destruct (decide (k = k')).
    + rewrite IH. destruct (decide (k0 = k')) as [->|]; [|done].
      by rewrite decide_False by done.
Qed.

Lemma dict_contains_set d k v k' :
  dict_contains (dict_set d k v) k' = true ↔ k = k' ∨ dict_contains d k' = true.
Proof.
  unfold dict_contains. rewrite !bool_decide_eq_true, dict_get_set.
  destruct (decide (k = k')); [|naive_solver].
  split; [by left | by eexists].
Qed.

Lemma dict_contains_update d other k :
  dict_contains (dict_update d other) k = true
  ↔ dict_contains d k = true ∨ k ∈ dict_keys other.
Proof.
  unfold dict_update, dict_keys. revert d.
  induction other as [|[k0 v0] other IH]; intros d; simpl.
  - set_solver.
  - rewrite IH, dict_contains_set. set_solver.
Qed.

Lemma dict_contains_nil k : dict_contains ([] : list (K * V)) k = false.
Proof.
  unfold dict_contains. apply bool_decide_eq_false. simpl. by intros [? ?].
Qed.
End Dict.

(** *** The loop over the candidates *)

Lemma for_each_invariant {S A} (P : S → Prop) (body : A → Exec S unit) xs :
  (∀ x s, P s → P (body x s).1) →
  ∀ s, P s → P (for_each xs body s).1.
Proof.
  intros Hbody. induction xs as [|x xs IH]; intros s Hs; [done|].
  simpl. unfold bind. specialize (Hbody x s Hs).
  destruct (body x s) as [s' [e|[]]]; [done|]. by apply IH.
Qed.

Lemma trial_written env args fixed_args search_conf s :
  written (trial env args fixed_args search_conf s).1 = written s.
Proof.
  unfold trial. destruct (existsb _ _); [done|].
  unfold do_launch, do_load, bind, get, modify, lift. simpl.
  destruct (launch env _ _) as [e|metrics_path]; [done|]. simpl.
  by destruct (load_metrics env _ _).
Qed.

Lemma trials_written env args fixed_args configs s :
  written (for_each configs (trial env args fixed_args) s).1 = written s.
Proof.
  apply (for_each_invariant (λ s', written s' = written s)); [|done].
  intros x s' Hs'. by rewrite trial_written.
Qed.

Lemma trial_overlap env args fixed_args search_conf k s :
  k ∈ dict_keys search_conf → k ∈ dict_keys fixed_args →
  trial env args fixed_args search_conf s
  = (s, inl (ValueError "Fixed arg shows up in search space.")).
Proof.
  intros Hconf Hfixed. unfold trial.
  replace (existsb _ _) with true; [done|].
  symmetry. apply existsb_exists. exists k. split.
  - by apply list_elem_of_In.
  - apply dict_contains_update. by right.
Qed.

(** *** The scan *)

Lemma metric_fns_keeps mode curr best :
  metric_fns mode curr best = curr ↔ at_least_as_good mode curr best.
Proof.
  destruct mode; simpl; unfold py_max, py_min.
  - destruct (Z.ltb_spec curr best); lia.
  - destruct (Z.ltb_spec best curr); lia.
Qed.

Lemma scan_from_no_metric args best c2m :
  truthy_str (search_metric args) = false →
  scan_from args best c2m = inr best.
Proof.
  intros Hno. revert best.
  induction c2m as [|[path_config m] c2m IH]; intros [bpc bm]; [done|].
  simpl. rewrite Hno. apply IH.
Qed.

Lemma at_least_as_good_trans mode a b c :
  at_least_as_good mode a b → at_least_as_good mode b c →
  at_least_as_good mode a c.
Proof. destruct mode; simpl; lia. Qed.

Lemma at_least_as_good_total mode a b :
  at_least_as_good mode a b ∨ at_least_as_good mode b a.
Proof. destruct mode; simpl; lia. Qed.

(** Once a non-zero best value is held, the scan over entries whose values
    are all non-zero ends with an entry at least as good as all of them. *)
Lemma scan_from_running args key :
  search_metric args = Some key → key ≠ "" →
  ∀ (c2m : collection) pc0 b, b ≠ 0 →
    Forall (λ e, ∃ v, e.2 !! key = Some v ∧ v ≠ 0) c2m →
    ∃ pc v,
      scan_from args (Some pc0, Some b) c2m = inr (Some pc, Some v)
      ∧ at_least_as_good (search_metric_mode args) v b
      ∧ Forall (λ e, ∀ v', e.2 !! key = Some v' →
                     at_least_as_good (search_metric_mode args) v v') c2m
      ∧ ((pc, v) = (pc0, b) ∨ ∃ m, (pc, m) ∈ c2m ∧ m !! key = Some v).
Proof.
  intros Hkey Hne. induction c2m as [|[pc1 m1] c2m IH]; intros pc0 b Hb Hall.
  - exists pc0, b. repeat split; [|done|by left].
    destruct (search_metric_mode args); simpl; lia.
  - apply Forall_cons in Hall as [(v1 & Hv1 & Hnz1) Hall]. simpl in Hv1.
    simpl. rewrite Hkey. simpl. rewrite bool_decide_eq_true_2 by done.
    rewrite (bool_decide_eq_true_2 (b ≠ 0)) by done. simpl.
    unfold metrics_getitem. rewrite Hv1.
    case_bool_decide as Hcmp.
    + apply metric_fns_keeps in Hcmp.
      destruct (IH pc1 v1 Hnz1 Hall) as (pc & v & Hrun & Hgood & Hbest & Hfrom).
      exists pc, v. split; [done|]. split; [|split].
      * by eapply at_least_as_good_trans.
      * apply Forall_cons. split; [|done].
        simpl. intros v' Hv'. by simplify_eq.
      * right. destruct Hfrom as [[= -> ->]|(m & Hin & Hm)].
        -- exists m1. split; [left|done].
        -- exists m. split; [by right|done].
    + assert (at_least_as_good (search_metric_mode args) b v1) as Hkeep.
      { destruct (at_least_as_good_total (search_metric_mode args) b v1); [done|].
        by apply metric_fns_keeps in H. }
      destruct (IH pc0 b Hb Hall) as (pc & v & Hrun & Hgood & Hbest & Hfrom).
      exists pc, v. split; [done|]. split; [done|split].
      * apply Forall_cons. split; [|done].
        simpl. intros v' Hv'. simplify_eq.
        by eapply at_least_as_good_trans.
      * destruct Hfrom as [Heq|(m & Hin & Hm)]; [by left|].
        right. exists m. split; [by right|done].
Qed.

(** The scan does select the best entry of a non-empty collection as long
    as no metric value is zero. *)
Lemma scan_selects_best_nonzero args key (c2m : collection) :
  search_metric args = Some key → key ≠ "" → c2m ≠ [] →
  Forall (λ e, ∃ v, e.2 !! key = Some v ∧ v ≠ 0) c2m →
  ∃ pc m v,
    scan args c2m = inr (Some pc, Some v)
    ∧ (pc, m) ∈ c2m ∧ m !! key = Some v
    ∧ Forall (λ e, ∀ v', e.2 !! key = Some v' →
                   at_least_as_good (search_metric_mode args) v v') c2m.
Proof.
  intros Hkey Hne Hnonempty Hall.
  destruct c2m as [|[pc1 m1] c2m]; [done|].
  apply Forall_cons in Hall as [(v1 & Hv1 & Hnz1) Hall]. simpl in Hv1.
  destruct (scan_from_running args key Hkey Hne c2m pc1 v1 Hnz1 Hall)
    as (pc & v & Hrun & Hgood & Hbest & Hfrom).
  assert (scan args ((pc1, m1) :: c2m) = inr (Some pc, Some v)) as Hscan.
  { unfold scan. simpl. rewrite Hkey. simpl.
    rewrite bool_decide_eq_true_2 by done. simpl.
    unfold metrics_getitem. by rewrite Hv1. }
  destruct Hfrom as [[= -> ->]|(m & Hin & Hm)].
  - exists pc1, m1, v1. split; [done|]. split; [left|]. split; [done|].
    apply Forall_cons. split; [|done]. simpl. intros v' Hv'. by simplify_eq.
  - exists pc, m, v. split; [done|]. split; [by right|]. split; [done|].
    apply Forall_cons. split; [|done]. simpl. intros v' Hv'. by simplify_eq.
Qed.

(** *** The whole run *)


(** What a run that returns has written. *)
Lemma main_written env args search_config s :
  main env args search_config initial = (s, inr tt) →
  ∃ best_path best_config best_metric,
    scan args (config_to_metrics s)
    = inr (Some (best_path, best_config), best_metric)
    ∧ written s =
      [(now_str env +:+ "_" +:+ basename env (config args) +:+ ".txt",
        report env args best_path best_config best_metric (config_to_metrics s))].
Proof.
  unfold main.
  destruct (search_space search_config) as [ss|]; [|done].
  destruct (fixed_args search_config) as [fa|]; [|done].
  unfold bind at 1.
  pose proof (trials_written env args fa
                (config_generator env ss (max_search args)) initial) as Hw.
  destruct (for_each _ _ initial) as [s1 [e|[]]]; [done|].
  simpl in Hw. unfold bind, get, lift. simpl.
  destruct (scan args (config_to_metrics s1)) as [e|[[[bp bc]|] bm]] eqn:Hscan;
    simpl; try done.
  intros [= <-]. simpl. exists bp, bc, bm. by rewrite Hscan, Hw.
Qed.

(** The candidates of the grid carry the names of the search space. *)
Lemma dict_product_keys (ss c : conf) :
  c ∈ dict_product ss → dict_keys c = dict_keys ss.
Proof.
  revert c. induction ss as [|[k v] ss IH]; intros c; simpl.
  - intros Hc. apply list_elem_of_singleton in Hc. by subst.
  - intros Hc. apply list_elem_of_In, in_flat_map in Hc as (x & _ & Hc).
    apply in_map_iff in Hc as (c' & <- & Hc').
    unfold dict_keys in *. simpl. f_equal. apply IH. by apply list_elem_of_In.
Qed.

(** C1, at the failing inputs: a best value of 0 counts as not yet set.
    Under "max", of the values 0 and -1 the scan returns the entry with -1;
    under "min", of the values 5, 0 and 3 it returns the entry with 3. *)
Theorem scan_forgets_zero :
  scan (Fixtures.args_with (Some "A") ModeMax) (Fixtures.collected [0; -1])
  = inr (Some ("run1/metrics.json", "{'x': 2}"), Some (-1))
  ∧ scan (Fixtures.args_with (Some "A") ModeMin) (Fixtures.collected [5; 0; 3])
    = inr (Some ("run2/metrics.json", "{'x': 3}"), Some 3).
Proof. split; reflexivity. Qed.

(** The example of the specification: of the values 5, 9 and 2 the scan
    returns the entry with 9 under "max" and the one with 2 under "min". *)
Example scan_5_9_2 :
  scan (Fixtures.args_with (Some "A") ModeMax) (Fixtures.collected [5; 9; 2])
  = inr (Some ("run1/metrics.json", "{'x': 2}"), Some 9)
  ∧ scan (Fixtures.args_with (Some "A") ModeMin) (Fixtures.collected [5; 9; 2])
    = inr (Some ("run2/metrics.json", "{'x': 3}"), Some 2).
Proof. split; reflexivity. Qed.

(** C3, on every input without [--search_metric]: the run ends in an
    exception and no report has been written. *)
Theorem main_without_search_metric
    env max_search mode config device search_config :
  ∃ s e,
    main env (mkArgs max_search None mode config device) search_config initial
    = (s, inl e)
    ∧ written s = [].
Proof.
  set (args := mkArgs max_search None mode config device).
  unfold main.
  destruct (search_space search_config) as [ss|]; [|by eexists _, _].
  destruct (fixed_args search_config) as [fa|]; [|by eexists _, _].
  unfold bind at 1.
  pose proof (trials_written env args fa
                (config_generator env ss (Search.max_search args)) initial) as Hw.
  destruct (for_each _ _ initial) as [s1 [e|[]]]; [by eexists _, _|].
  unfold bind, get, lift, scan. simpl.
  rewrite scan_from_no_metric by done. simpl.
  by eexists _, _.
Qed.

(** When the trials go through, that exception is the one of unpacking
    [best_path_config], which is still [None]. *)
Example main_without_search_metric_5_9_2 :
  let run := main (Fixtures.env_with [5; 9; 2]) (Fixtures.args_with None ModeMax)
                  Fixtures.config_x initial in
  run.2 = inl (TypeError "cannot unpack non-iterable NoneType object")
  ∧ launched run.1 = [["--x"; "1"; "--bs"; "32"];
                      ["--x"; "2"; "--bs"; "32"];
                      ["--x"; "3"; "--bs"; "32"]]
  ∧ written run.1 = [].
Proof. vm_compute. by repeat split. Qed.

(** C5, at a failing input: three trials with the values 5, 9 and 2 of "A",
    searched for the maximum.  The run returns; the second line of the
    report is the text "Config: {best_config}", not the configuration of
    the selected trial. *)
Theorem main_report_config_line :
  let args := Fixtures.args_with (Some "A") ModeMax in
  let run := main (Fixtures.env_with [5; 9; 2]) args Fixtures.config_x initial in
  run.2 = inr tt
  ∧ scan args (config_to_metrics run.1)
    = inr (Some ("run1/metrics.json", "{'x': 2}"), Some 9)
  ∧ written run.1 =
    [("2019-05-01_12:00:00_config.json.txt",
      "Path: run1/metrics.json" +:+ newline
      +:+ "Config: {best_config}" +:+ newline
      +:+ "A: 9" +:+ newline
      +:+ pprint (Fixtures.env_with [5; 9; 2]) (config_to_metrics run.1))].
Proof. vm_compute. by repeat split. Qed.



End SearchSpec.

(** ** Further facts about [Payload] *)
Module PayloadMore.
Import Payload PayloadSpec.
Section WithItem.
Context {Item : Type}.
Implicit Types (p : Payload Item) (t : Tensor).


Lemma comprehension_raises {A B} (f : A → exn + B) pre x post e :
  Forall (λ y, ∃ b, f y = inr b) pre → f x = inl e →
  comprehension f (pre ++ x :: post) = inl e.
Proof.
  intros Hpre Hx. induction Hpre as [|y pre [b Hy] _ IH]; simpl.
  - by rewrite Hx.
  - by rewrite Hy, IH.
Qed.

Lemma comprehension_returns {A B} (f : A → exn + B) (P : B → Prop) xs :
  Forall (λ x, ∃ b, f x = inr b ∧ P b) xs →
  ∃ bs, comprehension f xs = inr bs ∧ length bs = length xs ∧ Forall P bs.
Proof.
  induction 1 as [|x xs (b & Hx & Hb) _ (bs & Hbs & Hlen & HP)]; simpl.
  - by exists [].
  - exists (b :: bs). rewrite Hx, Hbs. simpl. by rewrite Hlen, Forall_cons.
Qed.

(** X2: when the labelling function raises on an item, the items before it
    having been labelled, [add_label_set] raises that exception and the
    payload is unchanged. *)
Theorem add_label_set_label_fn_raises
    p task_name label_name f verbose pre x post e :
  items (dataset (data_loader p)) = pre ++ x :: post →
  Forall (λ y, ∃ t, f y = inr t) pre →
  f x = inl e →
  add_label_set task_name label_name None (Some (Callable f)) verbose p
  = (p, inl e).
Proof.
  intros Hitems Hpre Hx. rewrite add_label_set_run. simpl.
  by rewrite Hitems, (comprehension_raises f pre x post e Hpre Hx).
Qed.

Lemma torch_stack_same_shape ts s :
  ts ≠ [] → Forall (λ t, shape t = s) ts →
  ∃ t', torch_stack ts = inr t' ∧ shape t' = length ts :: s.
Proof.
  intros Hne Hall. destruct ts as [|t ts]; [done|].
  apply Forall_cons in Hall as [Ht Hall]. unfold torch_stack.
  replace (forallb _ ts) with true.
  - eexists. split; [done|]. simpl. by rewrite Ht.
  - symmetry. apply forallb_forall. intros u Hu.
    apply bool_decide_eq_true. rewrite Ht.
    by apply (proj1 (Forall_forall _ _) Hall), list_elem_of_In.
Qed.

(** X3: over a dataset of [n > 0] items, a labelling function whose labels
    all have the shape [s], of at least one dimension, makes [add_label_set]
    return, the labels stored under the task name having the shape
    [n :: s]. *)
Theorem add_label_set_label_fn_shape p task_name label_name f verbose s :
  items (dataset (data_loader p)) ≠ [] →
  Forall (λ x, ∃ t, f x = inr t ∧ shape t = s) (items (dataset (data_loader p))) →
  s ≠ [] →
  ∃ p' t',
    add_label_set task_name label_name None (Some (Callable f)) verbose p
    = (p', inr tt)
    ∧ dataset_labels p' !! task_name = Some t'
    ∧ shape t' = length (items (dataset (data_loader p))) :: s
    ∧ labels_to_tasks p' !! label_name = Some (Some task_name).
Proof.
  intros Hne Hall Hs.
  destruct (comprehension_returns f (λ t, shape t = s) _ Hall)
    as (ts & Hts & Hlen & Hshapes).
  destruct (torch_stack_same_shape ts s) as (t' & Hstack & Hshape); [|done|].
  { intros ->. destruct (items (dataset (data_loader p))); done. }
  rewrite add_label_set_run. simpl. rewrite Hts, Hstack.
  replace (dim t' <? 2)%nat with false.
  - eexists _, t'. split; [done|]. unfold dataset_labels. simpl.
    rewrite !lookup_insert_eq. by rewrite Hshape, Hlen.
  - symmetry. apply Nat.ltb_ge. unfold dim. rewrite Hshape.
    destruct s; [done|]. simpl. lia.
Qed.

(** X4: a labelling function that returns a scalar label for every item of a
    non-empty dataset makes [add_label_set] raise the two-dimensions error:
    the stacked labels have the shape [n]. *)
Theorem add_label_set_label_fn_scalar p task_name label_name f verbose :
  items (dataset (data_loader p)) ≠ [] →
  Forall (λ x, ∃ t, f x = inr t ∧ shape t = []) (items (dataset (data_loader p))) →
  add_label_set task_name label_name None (Some (Callable f)) verbose p
  = (p, inl (Exception "New label_set must have at least two dimensions: [n, ?]")).
Proof.
  intros Hne Hall.
  destruct (comprehension_returns f (λ t, shape t = []) _ Hall)
    as (ts & Hts & Hlen & Hshapes).
  destruct (torch_stack_same_shape ts []) as (t' & Hstack & Hshape); [|done|].
  { intros ->. destruct (items (dataset (data_loader p))); done. }
  rewrite add_label_set_run. simpl. rewrite Hts, Hstack.
  unfold dim. by rewrite Hshape.
Qed.

(** X5: removing a label set that the dataset's label mapping does not have
    raises [KeyError] and changes nothing, whatever [labels_to_tasks] says
    about the name. *)
Theorem remove_label_set_missing p label_name verbose :
  dataset_labels p !! label_name = None →
  remove_label_set label_name verbose p = (p, inl (KeyError label_name)).
Proof.
  intros Hmissing. by rewrite remove_label_set_run, Hmissing.
Qed.

(** X6: removing a label set that the dataset's label mapping has and
    [labels_to_tasks] has not raises [KeyError] after the labels have been
    dropped from the dataset: the call fails and the labels are gone. *)
Theorem remove_label_set_unmapped p label_name verbose t :
  dataset_labels p !! label_name = Some t →
  labels_to_tasks p !! label_name = None →
  ∃ p', remove_label_set label_name verbose p = (p', inl (KeyError label_name))
        ∧ dataset_labels p' = delete label_name (dataset_labels p)
        ∧ dataset_labels p' !! label_name = None
        ∧ labels_to_tasks p' = labels_to_tasks p.
Proof.
  intros Hlab Hl2t. rewrite remove_label_set_run, Hlab. simpl. rewrite Hl2t.
  eexists. split; [done|]. unfold dataset_labels. simpl.
  by rewrite lookup_delete_eq.
Qed.

(** X7: [remove_label_set] returns exactly when the name is a key of both
    mappings. *)
Theorem remove_label_set_returns_iff p label_name verbose :
  (∃ p', remove_label_set label_name verbose p = (p', inr tt))
  ↔ is_Some (dataset_labels p !! label_name)
    ∧ is_Some (labels_to_tasks p !! label_name).
Proof.
  rewrite remove_label_set_run. split.
  - intros [p' Hrun].
    destruct (dataset_labels p !! label_name); [|discriminate].
    simpl in Hrun. destruct (labels_to_tasks p !! label_name); [|discriminate].
    by split; eexists.
  - intros [[t ->] [task ->]]. by eexists.
Qed.

(** X8: a returning [remove_label_set] has deleted the name from both
    mappings and kept every other entry of both, and so keeps the mappings
    in lockstep. *)
Theorem remove_label_set_frame p p' label_name verbose :
  remove_label_set label_name verbose p = (p', inr tt) →
  dataset_labels p' = delete label_name (dataset_labels p)
  ∧ labels_to_tasks p' = delete label_name (labels_to_tasks p)
  ∧ name p' = name p ∧ split p' = split p
  ∧ items (dataset (data_loader p')) = items (dataset (data_loader p))
  ∧ (lockstep p → lockstep p').
Proof.
  intros Hrun. pose proof Hrun as Hrun'. rewrite remove_label_set_run in Hrun.
  destruct (dataset_labels p !! label_name); [|discriminate].
  simpl in Hrun. destruct (labels_to_tasks p !! label_name); [|discriminate].
  injection Hrun as <-. repeat split.
  intros Hp. by apply (remove_label_set_lockstep p _ label_name verbose).
Qed.

(** X9: [remap_labelsets] never raises; it leaves the name, the data loader
    (so the dataset's labels) and the split alone and keeps the names of
    [labels_to_tasks], so names of the argument that the payload does not
    have are ignored, and it keeps the mappings in lockstep. *)
Theorem remap_labelsets_returns p overrides default_none verbose :
  ∃ p', remap_labelsets overrides default_none verbose p = (p', inr tt)
        ∧ name p' = name p ∧ data_loader p' = data_loader p ∧ split p' = split p
        ∧ dom (labels_to_tasks p') = dom (labels_to_tasks p)
        ∧ (lockstep p → lockstep p').
Proof.
  eexists. split; [apply remap_labelsets_run|]. repeat split.
  - simpl. apply set_eq. intros k. rewrite !elem_of_dom, map_lookup_imap.
    destruct (labels_to_tasks p !! k); simpl; [|done].
    split; intros _; by eexists.
  - intros Hp.
    by apply (remap_labelsets_lockstep p _ overrides default_none verbose),
             remap_labelsets_run.
Qed.

(** X10: with [default_none] set, [remap_labelsets] gives every label set
    listed in its argument the task listed and every other label set the
    task [None]. *)
Theorem remap_labelsets_default_none p overrides verbose k :
  labels_to_tasks (remap_labelsets overrides true verbose p).1 !! k
  = (λ _, match overrides !! k with
          | Some new_task => new_task
          | None => None
          end) <$> labels_to_tasks p !! k.
Proof.
  rewrite remap_labelsets_run. simpl. rewrite map_lookup_imap.
  unfold remapped. by destruct (labels_to_tasks p !! k), (overrides !! k).
Qed.

(** X11: remapping twice with the same arguments is remapping once. *)
Theorem remap_labelsets_idempotent p overrides default_none verbose verbose' :
  remap_labelsets overrides default_none verbose'
    (remap_labelsets overrides default_none verbose p).1
  = remap_labelsets overrides default_none verbose p.
Proof.
  rewrite !remap_labelsets_run. simpl. f_equal.
  unfold set_labels_to_tasks. simpl. f_equal.
  apply map_eq. intros k. rewrite !map_lookup_imap.
  destruct (labels_to_tasks p !! k) as [old|]; simpl; [|done].
  unfold remapped. by destruct (overrides !! k), default_none.
Qed.

(** X12: labels added under a task name other than the label-set name, the
    dataset having no labels of the label-set name, cannot be removed:
    [remove_label_set] raises [KeyError] and changes nothing. *)
Theorem add_then_remove_key_mismatch
    p p1 task_name label_name label_list label_fn verbose verbose' :
  task_name ≠ label_name →
  dataset_labels p !! label_name = None →
  add_label_set task_name label_name label_list label_fn verbose p = (p1, inr tt) →
  remove_label_set label_name verbose' p1 = (p1, inl (KeyError label_name)).
Proof.
  intros Hne Hmissing. rewrite add_label_set_run.
  destruct (new_labels_of p label_list label_fn) as [e|t]; [discriminate|].
  destruct (dim t <? 2)%nat; [discriminate|].
  intros [= <-]. rewrite remove_label_set_run.
  unfold dataset_labels in *. simpl.
  by rewrite lookup_insert_ne, Hmissing by done.
Qed.

(** X13: adding labels again under the same names replaces the earlier
    ones: after two returning calls with [label_list] the payload is what
    the second call alone makes of it. *)
Theorem add_label_set_again
    p p1 p2 task_name label_name o o' verbose verbose' :
  add_label_set task_name label_name (Some o) None verbose p = (p1, inr tt) →
  add_label_set task_name label_name (Some o') None verbose' p1 = (p2, inr tt) →
  add_label_set task_name label_name (Some o') None verbose' p = (p2, inr tt).
Proof.
  rewrite !add_label_set_run. simpl.
  destruct o as [t| |]; try discriminate.
  destruct (dim t <? 2)%nat; [discriminate|]. intros [= <-].
  destruct o' as [t'| |]; try discriminate.
  destruct (dim t' <? 2)%nat; [discriminate|]. intros [= <-].
  f_equal. unfold set_labels_to_tasks, set_dataset_labels. simpl.
  by rewrite !insert_insert_eq.
Qed.
End WithItem.

Import Fixtures.
Local Open Scope string_scope.


Lemma add_label_set_label_fn_raises_witness :
  add_label_set "T2" "b" None (Some (Callable label_raising)) true P0
  = (P0, inl TrialFailure).
Proof.
  apply (add_label_set_label_fn_raises P0 "T2" "b" label_raising true [10] 20 []).
  - reflexivity.
  - repeat constructor. by eexists.
  - reflexivity.
Defined.

Lemma add_label_set_label_fn_shape_witness :
  ∃ p' t',
    add_label_set "T2" "b" None (Some (Callable label_row)) true P0 = (p', inr tt)
    ∧ dataset_labels p' !! "T2" = Some t'
    ∧ shape t' = [2; 1]%nat
    ∧ labels_to_tasks p' !! "b" = Some (Some "T2").
Proof.
  apply (add_label_set_label_fn_shape P0 "T2" "b" label_row true [1]%nat).
  - discriminate.
  - repeat constructor; by eexists.
  - discriminate.
Defined.

Lemma add_label_set_label_fn_scalar_witness :
  add_label_set "T2" "b" None (Some (Callable label_scalar)) true P0
  = (P0, inl (Exception "New label_set must have at least two dimensions: [n, ?]")).
Proof.
  apply (add_label_set_label_fn_scalar P0 "T2" "b" label_scalar true).
  - discriminate.
  - repeat constructor; by eexists.
Defined.

Lemma remove_label_set_missing_witness :
  remove_label_set "b" true P0 = (P0, inl (KeyError "b")).
Proof.
  apply (remove_label_set_missing P0 "b" true). reflexivity.
Defined.

Lemma remove_label_set_unmapped_witness :
  ∃ p', remove_label_set "b" true P_unmapped = (p', inl (KeyError "b"))
        ∧ dataset_labels p' = delete "b" (dataset_labels P_unmapped)
        ∧ dataset_labels p' !! "b" = None
        ∧ labels_to_tasks p' = labels_to_tasks P_unmapped.
Proof.
  apply (remove_label_set_unmapped P_unmapped "b" true Y1); reflexivity.
Defined.

Lemma remove_label_set_returns_iff_witness :
  ∃ p', remove_label_set "a" true P0 = (p', inr tt).
Proof.
  apply (remove_label_set_returns_iff P0 "a" true). split; by eexists.
Defined.

Lemma remove_label_set_frame_witness :
  dataset_labels (remove_label_set "a" true P0).1 = delete "a" (dataset_labels P0)
  ∧ labels_to_tasks (remove_label_set "a" true P0).1
    = delete "a" (labels_to_tasks P0).
Proof.
  assert (remove_label_set "a" true P0
          = ((remove_label_set "a" true P0).1, inr tt)) as Hrun
    by (by rewrite remove_label_set_run).
  destruct (remove_label_set_frame P0 _ "a" true Hrun) as (Hlab & Hl2t & _).
  by split.
Defined.

Lemma add_then_remove_key_mismatch_witness :
  remove_label_set "b" true
    (set_labels_to_tasks (insert "b" (Some "T2"))
       (set_dataset_labels (insert "T2" Y1) P0))
  = (set_labels_to_tasks (insert "b" (Some "T2"))
       (set_dataset_labels (insert "T2" Y1) P0), inl (KeyError "b")).
Proof.
  apply (add_then_remove_key_mismatch P0 _ "T2" "b" (Some (PyTensor Y1)) None
           true true).
  - discriminate.
  - reflexivity.
  - by rewrite add_label_set_run.
Defined.

Lemma add_label_set_again_witness :
  add_label_set "T2" "b" (Some (PyTensor Y0)) None true P0
  = (set_labels_to_tasks (insert "b" (Some "T2"))
       (set_dataset_labels (insert "T2" Y0) P0), inr tt).
Proof.
  apply (add_label_set_again P0
           (set_labels_to_tasks (insert "b" (Some "T2"))
              (set_dataset_labels (insert "T2" Y1) P0))
           _ "T2" "b" (PyTensor Y1) (PyTensor Y0) true true).
  - by rewrite add_label_set_run.
  - rewrite add_label_set_run. reflexivity.
Defined.
End PayloadMore.

(** ** Further facts about the search driver *)
Module SearchMore.
Import Search SearchParts SearchSpec.

(** *** Dictionaries in insertion order *)
Section Dict.
Context {K V : Type} `{EqDecision K}.
Implicit Types (d other : list (K * V)).

Lemma dict_get_None d k : k ∉ dict_keys d → dict_get d k = None.
Proof.
  unfold dict_keys. induction d as [|[k0 v0] d IH]; simpl; [done|].
  intros Hk. apply not_elem_of_cons in Hk as [Hne Hk].
  rewrite decide_False by done. by apply IH.
Qed.

Lemma dict_set_fresh d k v : k ∉ dict_keys d → dict_set d k v = d ++ [(k, v)].
Proof.
  unfold dict_keys. induction d as [|[k0 v0] d IH]; simpl; [done|].
  intros Hk. apply not_elem_of_cons in Hk as [Hne Hk].
  rewrite decide_False by done. by rewrite IH.
Qed.

Lemma dict_keys_set d k v :
  dict_keys (dict_set d k v)
  = if decide (k ∈ dict_keys d) then dict_keys d else dict_keys d ++ [k].
Proof.
  unfold dict_keys. induction d as [|[k0 v0] d IH].
  - by destruct (decide (k ∈ ([] : list (K * V)).*1)) as [Hin%elem_of_nil|].
  - cbn [dict_set]. destruct (decide (k0 = k)) as [->|Hne];
      rewrite !fmap_cons; cbn [fst].
    + rewrite decide_True; [done | left].
    + rewrite IH. destruct (decide (k ∈ d.*1)) as [Hin|Hnin].
      * rewrite decide_True; [done | by right].
      * rewrite decide_False; [done|].
        intros Hin. apply elem_of_cons in Hin as [->|Hin]; done.
Qed.

Lemma dict_set_NoDup d k v :
  NoDup (dict_keys d) → NoDup (dict_keys (dict_set d k v)).
Proof.
  intros Hd. rewrite dict_keys_set. destruct (decide _) as [|Hnin]; [done|].
  apply NoDup_app. split; [done|]. split.
  - intros k' Hk' Hin. apply list_elem_of_singleton in Hin. by subst.
  - apply NoDup_singleton.
Qed.

Lemma dict_update_NoDup d other :
  NoDup (dict_keys d) → NoDup (dict_keys (dict_update d other)).
Proof.
  unfold dict_update. revert d.
  induction other as [|[k v] other IH]; intros d Hd; simpl; [done|].
  by apply IH, dict_set_NoDup.
Qed.

Lemma dict_update_disjoint d other :
  NoDup (dict_keys other) →
  (∀ k, k ∈ dict_keys other → k ∉ dict_keys d) →
  dict_update d other = d ++ other.
Proof.
  unfold dict_update. revert d.
  induction other as [|[k v] other IH]; intros d Hnd Hdisj; simpl.
  - by rewrite app_nil_r.
  - unfold dict_keys in Hnd. simpl in Hnd. apply NoDup_cons in Hnd as [Hk Hnd].
    rewrite dict_set_fresh by (apply Hdisj; left).
    rewrite IH; [by rewrite <- app_assoc | done |].
    intros k' Hk' Hin. unfold dict_keys in Hin. rewrite fmap_app in Hin.
    apply elem_of_app in Hin as [Hin|Hin].
    + apply (Hdisj k'); [by right | done].
    + apply list_elem_of_singleton in Hin. simpl in Hin. by subst.
Qed.

Lemma dict_get_update d other k :
  NoDup (dict_keys other) →
  dict_get (dict_update d other) k
  = match dict_get other k with
    | Some v => Some v
    | None => dict_get d k
    end.
Proof.
  unfold dict_update. revert d.
  induction other as [|[k0 v0] other IH]; intros d Hnd; simpl; [done|].
  unfold dict_keys in Hnd. simpl in Hnd. apply NoDup_cons in Hnd as [Hk0 Hnd].
  rewrite IH by done. rewrite dict_get_set.
  destruct (decide (k0 = k)) as [<-|Hne]; [|done].
  by rewrite dict_get_None.
Qed.

Lemma dict_get_Some_elem d k v : dict_get d k = Some v → k ∈ dict_keys d.
Proof.
  unfold dict_keys. induction d as [|[k0 v0] d IH]; simpl; [done|].
  destruct (decide (k0 = k)) as [->|Hne]; [by left|].
  intros Hget. right. by apply IH.
Qed.

Lemma dict_contains_keys d k : dict_contains d k = true ↔ k ∈ dict_keys d.
Proof.
  unfold dict_contains. rewrite bool_decide_eq_true. split.
  - intros [v Hv]. by apply dict_get_Some_elem in Hv.
  - intros Hin. destruct (dict_get d k) as [v|] eqn:Hget; [by eexists|].
    exfalso. revert Hin Hget. unfold dict_keys.
    induction d as [|[k0 v0] d IH]; simpl; [by intros ?%elem_of_nil|].
    intros Hin. destruct (decide (k0 = k)) as [->|Hne]; [done|].
    apply elem_of_cons in Hin as [->|Hin]; [done|]. by apply IH.
Qed.
End Dict.

(** *** The configuration of a trial *)

Lemma overlaps_shared fixed_args search_conf :
  overlaps fixed_args search_conf = true
  ↔ ∃ k, k ∈ dict_keys search_conf ∧ k ∈ dict_keys fixed_args.
Proof.
  unfold overlaps. rewrite existsb_exists. split.
  - intros (k & Hk & Hc). exists k. split; [|by apply list_elem_of_In].
    apply dict_contains_update in Hc as [Hc|Hc]; [|done].
    by rewrite dict_contains_nil in Hc.
  - intros (k & Hconf & Hfixed). exists k. split; [by apply list_elem_of_In|].
    apply dict_contains_update. by right.
Qed.

Lemma overlaps_disjoint fixed_args search_conf :
  overlaps fixed_args search_conf = false
  ↔ ∀ k, k ∈ dict_keys fixed_args → k ∉ dict_keys search_conf.
Proof.
  rewrite <- not_true_iff_false, overlaps_shared. naive_solver.
Qed.

(** X14: when the candidate and the fixed arguments have no name in common
    (each being a dictionary, with every name once) and no device is given,
    the parameters of the candidate come first and the fixed arguments
    after them, in the argument list as in the merged configuration. *)
Theorem full_conf_disjoint env args fixed_args search_conf :
  truthy_str (device args) = false →
  NoDup (dict_keys search_conf) → NoDup (dict_keys fixed_args) →
  overlaps fixed_args search_conf = false →
  full_conf_of args fixed_args search_conf = search_conf ++ fixed_args
  ∧ arg_list_of env (full_conf_of args fixed_args search_conf)
    = arg_list_of env search_conf ++ arg_list_of env fixed_args.
Proof.
  intros Hdev Hsc Hfa Hdisj.
  assert (full_conf_of args fixed_args search_conf = search_conf ++ fixed_args)
    as ->.
  { unfold full_conf_of. rewrite Hdev.
    rewrite (dict_update_disjoint [] search_conf Hsc)
      by (intros k _; apply not_elem_of_nil).
    simpl. apply dict_update_disjoint; [done|].
    by apply overlaps_disjoint. }
  split; [done|]. unfold arg_list_of. apply flat_map_app.
Qed.


(** X16: a device given on the command line reaches the trial, replacing
    what the candidate or the fixed arguments say about the device. *)
Theorem full_conf_device args fixed_args search_conf d :
  device args = Some d → d ≠ "" →
  dict_get (full_conf_of args fixed_args search_conf) "device" = Some (JStr d).
Proof.
  intros Hdev Hne. unfold full_conf_of, truthy_str. rewrite Hdev.
  rewrite bool_decide_eq_true_2 by done.
  rewrite dict_get_update; [|unfold dict_keys; simpl; apply NoDup_singleton].
  done.
Qed.

Lemma arg_list_of_length env (full_conf : conf) :
  length (arg_list_of env full_conf) = (2 * length full_conf)%nat.
Proof.
  unfold arg_list_of. induction full_conf as [|[k v] full_conf IH]; simpl; [done|].
  rewrite IH. lia.
Qed.

(** X17: no name occurs twice in the configuration of a trial, whatever the
    candidate and the fixed arguments are, and the argument list has two
    tokens for every name. *)
Theorem full_conf_names_once env args fixed_args search_conf :
  NoDup (dict_keys (full_conf_of args fixed_args search_conf))
  ∧ length (arg_list_of env (full_conf_of args fixed_args search_conf))
    = (2 * length (dict_keys (full_conf_of args fixed_args search_conf)))%nat.
Proof.
  split.
  - unfold full_conf_of.
    assert (NoDup (dict_keys (dict_update (dict_update [] search_conf) fixed_args)))
      as Hmerged.
    { apply dict_update_NoDup, dict_update_NoDup. apply NoDup_nil_2. }
    destruct (truthy_str (device args)); [|done].
    by apply dict_update_NoDup.
  - rewrite arg_list_of_length. unfold dict_keys. by rewrite length_fmap.
Qed.

(** *** The trials *)
Section Runs.
Variable env : Env.
Variable args : Args.

Lemma trial_no_overlap fixed_args search_conf s :
  overlaps fixed_args search_conf = false →
  trial env args fixed_args search_conf s =
  let arg_list := arg_list_for env args fixed_args search_conf in
  let s1 := mkRun (config_to_metrics s) (launched s ++ [arg_list]) (written s) in
  match launch env (length (launched s)) arg_list with
  | inl e => (s1, inl e)
  | inr metrics_path =>
      match load_metrics env (length (launched s)) metrics_path with
      | inl e => (s1, inl e)
      | inr metrics_dict =>
          (mkRun (dict_set (config_to_metrics s)
                           (key_of env metrics_path search_conf) metrics_dict)
                 (launched s ++ [arg_list]) (written s), inr tt)
      end
  end.
Proof.
  intros Hno. unfold trial. unfold overlaps in Hno. rewrite Hno.
  unfold do_launch, do_load, bind, get, modify, lift, arg_list_for, full_conf_of.
  cbn beta iota zeta.
  destruct (launch env _ _) as [e|metrics_path]; [done|].
  cbn [raise ret launched config_to_metrics written fst snd].
  rewrite length_app, Nat.add_sub.
  by destruct (load_metrics env _ _).
Qed.

Lemma trial_launched_grows fixed_args search_conf s :
  overlaps fixed_args search_conf = false →
  launched (trial env args fixed_args search_conf s).1
  = launched s ++ [arg_list_for env args fixed_args search_conf].
Proof.
  intros Hno. rewrite trial_no_overlap by done. cbn zeta.
  destruct (launch env _ _) as [e|metrics_path]; [done|].
  by destruct (load_metrics env _ _).
Qed.

(** X18: a trial ends in the overlap error, nothing launched, exactly when
    its candidate has a name of the fixed arguments; this holds for every
    candidate, also after earlier trials have run. *)
Theorem trial_overlap_iff fixed_args search_conf s :
  (∃ k, k ∈ dict_keys search_conf ∧ k ∈ dict_keys fixed_args)
  ↔ trial env args fixed_args search_conf s
    = (s, inl (ValueError "Fixed arg shows up in search space.")).
Proof.
  split.
  - intros (k & Hconf & Hfixed). by apply trial_overlap with k.
  - intros Hrun. apply overlaps_shared.
    destruct (overlaps fixed_args search_conf) eqn:Hover; [done|].
    pose proof (trial_launched_grows fixed_args search_conf s Hover) as Hgrow.
    rewrite Hrun in Hgrow. simpl in Hgrow.
    apply (f_equal length) in Hgrow. rewrite length_app in Hgrow.
    simpl in Hgrow. lia.
Qed.

Lemma for_each_app {S A} (body : A → Exec S unit) xs ys s :
  for_each (xs ++ ys) body s
  = bind (for_each xs body) (λ _, for_each ys body) s.
Proof.
  revert s. induction xs as [|x xs IH]; intros s; simpl; [done|].
  unfold bind in *. destruct (body x s) as [s' [e|[]]]; [done|]. apply IH.
Qed.

(** Candidates without overlap whose trials all return: every one is
    launched, in order, and nothing is written. *)
Lemma trials_run fixed_args configs :
  ∀ s0,
    Forall (λ c, overlaps fixed_args c = false) configs →
    (∀ i a, (length (launched s0) ≤ i < length (launched s0) + length configs)%nat →
            ∃ metrics_path, launch env i a = inr metrics_path) →
    (∀ i metrics_path,
       (length (launched s0) ≤ i < length (launched s0) + length configs)%nat →
       ∃ m, load_metrics env i metrics_path = inr m) →
    ∃ s, for_each configs (trial env args fixed_args) s0 = (s, inr tt)
         ∧ launched s = launched s0 ++ map (arg_list_for env args fixed_args) configs
         ∧ written s = written s0.
Proof.
  induction configs as [|c configs IH]; intros s0 Hno Hlaunch Hload.
  - exists s0. by rewrite app_nil_r.
  - apply Forall_cons in Hno as [Hc Hno]. simpl. unfold bind.
    rewrite trial_no_overlap by done. cbn zeta.
    destruct (Hlaunch (length (launched s0)) (arg_list_for env args fixed_args c))
      as [metrics_path ->]; [simpl; lia|].
    destruct (Hload (length (launched s0)) metrics_path) as [m ->]; [simpl; lia|].
    set (s1 := mkRun _ _ _).
    destruct (IH s1 Hno) as (s & Hrun & Hlaunched & Hwritten).
    + intros i a Hi. apply Hlaunch. subst s1. simpl in *.
      rewrite length_app in Hi. simpl in Hi. lia.
    + intros i mp Hi. apply Hload. subst s1. simpl in *.
      rewrite length_app in Hi. simpl in Hi. lia.
    + exists s. split; [done|]. subst s1. simpl in *.
      by rewrite Hlaunched, <- app_assoc.
Qed.

(** What [main] does once the loop over the candidates is over. *)
Lemma main_run search_config ss fa s1 r :
  search_space search_config = Some ss →
  fixed_args search_config = Some fa →
  for_each (config_generator env ss (max_search args)) (trial env args fa) initial
  = (s1, r) →
  main env args search_config initial =
  match r with
  | inl e => (s1, inl e)
  | inr _ =>
      match scan args (config_to_metrics s1) with
      | inl e => (s1, inl e)
      | inr (None, _) =>
          (s1, inl (TypeError "cannot unpack non-iterable NoneType object"))
      | inr (Some (best_path, best_config), best_metric) =>
          (mkRun (config_to_metrics s1) (launched s1)
                 (written s1 ++
                    [(now_str env +:+ "_" +:+ basename env (config args) +:+ ".txt",
                      report env args best_path best_config best_metric
                             (config_to_metrics s1))]),
           inr tt)
      end
  end.
Proof.
  intros Hss Hfa Hrun. unfold main. rewrite Hss, Hfa. cbn zeta.
  unfold bind at 1. rewrite Hrun. destruct r as [e|[]]; [done|].
  unfold bind, get, lift. simpl.
  by destruct (scan args (config_to_metrics s1)) as [e|[[[bp bc]|] bm]].
Qed.

Lemma main_after_trials search_config ss fa s1 r :
  search_space search_config = Some ss →
  fixed_args search_config = Some fa →
  for_each (config_generator env ss (max_search args)) (trial env args fa) initial
  = (s1, r) →
  match r with
  | inl e => main env args search_config initial = (s1, inl e)
  | inr _ =>
      launched (main env args search_config initial).1 = launched s1
      ∧ config_to_metrics (main env args search_config initial).1
        = config_to_metrics s1
  end.
Proof.
  intros Hss Hfa Hrun. rewrite (main_run search_config ss fa s1 r Hss Hfa Hrun).
  destruct r as [e|[]]; [done|].
  by destruct (scan args (config_to_metrics s1)) as [e|[[[bp bc]|] bm]].
Qed.

(** X19: when no candidate has a name of the fixed arguments and every
    trial and every reading of its metrics returns, the training entry point
    is invoked once per candidate, in the order of the tuner, each time with
    the argument list of that candidate. *)
Theorem main_launches_every_candidate search_config ss fa :
  search_space search_config = Some ss →
  fixed_args search_config = Some fa →
  Forall (λ c, overlaps fa c = false) (config_generator env ss (max_search args)) →
  (∀ i a, ∃ metrics_path, launch env i a = inr metrics_path) →
  (∀ i metrics_path, ∃ m, load_metrics env i metrics_path = inr m) →
  launched (main env args search_config initial).1
  = map (arg_list_for env args fa) (config_generator env ss (max_search args)).
Proof.
  intros Hss Hfa Hno Hlaunch Hload.
  destruct (trials_run fa _ initial Hno) as (s1 & Hrun & Hlaunched & _).
  { intros i a _. apply Hlaunch. }
  { intros i mp _. apply Hload. }
  destruct (main_after_trials search_config ss fa s1 (inr tt) Hss Hfa Hrun)
    as [-> _].
  by rewrite Hlaunched.
Qed.

(** X20: when the trial of a candidate fails, the trials before it having
    returned, [main] raises what the trial raised: the later candidates are
    not tried and no report is written. *)
Theorem main_trial_failure search_config ss fa pre c post e :
  search_space search_config = Some ss →
  fixed_args search_config = Some fa →
  config_generator env ss (max_search args) = pre ++ c :: post →
  Forall (λ c, overlaps fa c = false) (pre ++ [c]) →
  (∀ i a, (i < length pre)%nat → ∃ metrics_path, launch env i a = inr metrics_path) →
  (∀ i metrics_path, (i < length pre)%nat →
                     ∃ m, load_metrics env i metrics_path = inr m) →
  launch env (length pre) (arg_list_for env args fa c) = inl e →
  ∃ s, main env args search_config initial = (s, inl e)
       ∧ launched s = map (arg_list_for env args fa) (pre ++ [c])
       ∧ written s = [].
Proof.
  intros Hss Hfa Hgen Hno Hlaunch Hload Hfail.
  apply Forall_app in Hno as [Hpre Hc]. rewrite Forall_singleton in Hc.
  destruct (trials_run fa pre initial Hpre) as (s1 & Hrun & Hlaunched & Hwritten).
  { intros i a Hi. apply Hlaunch. simpl in Hi. lia. }
  { intros i mp Hi. apply Hload. simpl in Hi. lia. }
  simpl in Hlaunched, Hwritten.
  assert (for_each (config_generator env ss (max_search args))
                   (trial env args fa) initial
          = (mkRun (config_to_metrics s1) (launched s1 ++ [arg_list_for env args fa c])
                   (written s1), inl e)) as Hall.
  { rewrite Hgen, for_each_app. unfold bind. rewrite Hrun. simpl. unfold bind.
    rewrite trial_no_overlap by done. cbn zeta.
    rewrite Hlaunched, length_map. by rewrite Hfail. }
  eexists. split.
  - apply (main_after_trials search_config ss fa _ (inl e) Hss Hfa Hall).
  - simpl. by rewrite Hlaunched, map_app.
Qed.


(** X22: a run of [main] that returns was given a search metric and has
    collected at least one trial; it has written exactly one file, named
    after the time and the configuration file, holding the report for the
    entry the scan selected. *)
Theorem main_returns_report search_config s :
  main env args search_config initial = (s, inr tt) →
  truthy_str (search_metric args) = true
  ∧ config_to_metrics s ≠ []
  ∧ ∃ best_path best_config best_metric,
      scan args (config_to_metrics s)
      = inr (Some (best_path, best_config), best_metric)
      ∧ written s =
        [(now_str env +:+ "_" +:+ basename env (config args) +:+ ".txt",
          report env args best_path best_config best_metric (config_to_metrics s))].
Proof.
  intros Hrun.
  destruct (main_written env args search_config s Hrun)
    as (bp & bc & bm & Hscan & Hwritten).
  split; [|split].
  - destruct (truthy_str (search_metric args)) eqn:Htruthy; [done|].
    unfold scan in Hscan. by rewrite scan_from_no_metric in Hscan.
  - intros Hempty. by rewrite Hempty in Hscan.
  - by exists bp, bc, bm.
Qed.

(** X26: when the tuner yields no candidate, [main] launches nothing and
    raises the [TypeError] of unpacking [None], with or without a search
    metric. *)
Theorem main_no_candidates search_config ss fa :
  search_space search_config = Some ss →
  fixed_args search_config = Some fa →
  config_generator env ss (max_search args) = [] →
  main env args search_config initial
  = (initial, inl (TypeError "cannot unpack non-iterable NoneType object")).
Proof.
  intros Hss Hfa Hgen. unfold main. by rewrite Hss, Hfa, Hgen.
Qed.

Lemma trial_keys_NoDup fixed_args search_conf s :
  NoDup (dict_keys (config_to_metrics s)) →
  NoDup (dict_keys (config_to_metrics (trial env args fixed_args search_conf s).1)).
Proof.
  intros Hs. destruct (overlaps fixed_args search_conf) eqn:Hover.
  - apply overlaps_shared in Hover as (k & Hconf & Hfixed).
    by rewrite (trial_overlap env args fixed_args search_conf k s).
  - rewrite trial_no_overlap by done. cbn zeta.
    destruct (launch env _ _) as [e|metrics_path]; [done|].
    destruct (load_metrics env _ _) as [e|m]; [done|].
    simpl. by apply dict_set_NoDup.
Qed.

(** X27: whatever the trials return, no key [(metrics_path, str(search_conf))]
    occurs twice in the collection [main] is left with: a trial that comes
    back with the path and the configuration of an earlier one takes its
    place. *)
Theorem main_collection_keys_once search_config :
  NoDup (dict_keys (config_to_metrics (main env args search_config initial).1)).
Proof.
  destruct (search_space search_config) as [ss|] eqn:Hss;
    [|unfold main; rewrite Hss; apply NoDup_nil_2].
  destruct (fixed_args search_config) as [fa|] eqn:Hfa;
    [|unfold main; rewrite Hss, Hfa; apply NoDup_nil_2].
  assert (NoDup (dict_keys (config_to_metrics
            (for_each (config_generator env ss (max_search args))
                      (trial env args fa) initial).1))) as Htrials.
  { apply (for_each_invariant (λ s, NoDup (dict_keys (config_to_metrics s)))).
    - intros c s Hs. by apply trial_keys_NoDup.
    - apply NoDup_nil_2. }
  destruct (for_each _ _ initial) as [s1 r] eqn:Hrun.
  pose proof (main_after_trials search_config ss fa s1 r Hss Hfa Hrun) as Hmain.
  destruct r as [e|[]].
  - by rewrite Hmain.
  - destruct Hmain as (_ & ->). done.
Qed.
End Runs.

(** *** The scan *)

Lemma scan_from_app args best (c2m c2m' : collection) :
  scan_from args best (c2m ++ c2m')
  = match scan_from args best c2m with
    | inl e => inl e
    | inr best' => scan_from args best' c2m'
    end.
Proof.
  revert best. induction c2m as [|entry c2m IH]; intros best; simpl; [done|].
  destruct (scan_step args best entry) as [e|best']; [done|]. apply IH.
Qed.

(** X23: when every collected metrics dictionary has a value other than 0
    under the search metric, the scan of a non-empty collection returns one
    of its entries, with its value, and no collected value is better. *)
Theorem scan_best_of_nonzero args key (c2m : collection) :
  search_metric args = Some key → key ≠ "" → c2m ≠ [] →
  Forall (λ e, ∃ v, e.2 !! key = Some v ∧ v ≠ 0) c2m →
  ∃ pc m v,
    scan args c2m = inr (Some pc, Some v)
    ∧ (pc, m) ∈ c2m ∧ m !! key = Some v
    ∧ Forall (λ e, ∀ v', e.2 !! key = Some v' →
                   at_least_as_good (search_metric_mode args) v v') c2m.
Proof. apply scan_selects_best_nonzero. Qed.

Lemma scan_from_missing_metric args key (c2m : collection) :
  search_metric args = Some key → key ≠ "" →
  Exists (λ e, e.2 !! key = None) c2m →
  ∀ best, scan_from args best c2m = inl (KeyError key).
Proof.
  intros Hkey Hne. induction c2m as [|[pc m] c2m IH]; intros Hex [bpc bm].
  - by apply Exists_nil in Hex.
  - simpl. rewrite Hkey. simpl. rewrite bool_decide_eq_true_2 by done.
    unfold metrics_getitem. destruct (m !! key) as [v|] eqn:Hm.
    + apply Exists_cons in Hex as [Hhd|Htl]; [simpl in Hhd; congruence|].
      destruct (truthy_num bm); simpl; [|by apply IH].
      case_bool_decide; by apply IH.
    + by destruct (truthy_num bm).
Qed.

(** X24: when a search metric is given and some collected metrics dictionary
    lacks it, the scan raises [KeyError], wherever in the collection that
    dictionary is and whatever the others hold. *)
Theorem scan_missing_metric args key (c2m : collection) :
  search_metric args = Some key → key ≠ "" →
  Exists (λ e, e.2 !! key = None) c2m →
  scan args c2m = inl (KeyError key).
Proof.
  intros Hkey Hne Hex. by apply scan_from_missing_metric.
Qed.

(** X25: ties go to the later trial: when the last entry of the collection
    has a value at least as good as those of all entries before it, these
    being other than 0, the scan returns the last entry. *)
Theorem scan_last_wins_ties args key (c2m : collection) pc m v :
  search_metric args = Some key → key ≠ "" →
  Forall (λ e, ∃ v', e.2 !! key = Some v' ∧ v' ≠ 0) c2m →
  m !! key = Some v →
  Forall (λ e, ∀ v', e.2 !! key = Some v' →
                 at_least_as_good (search_metric_mode args) v v') c2m →
  scan args (c2m ++ [(pc, m)]) = inr (Some pc, Some v).
Proof.
  intros Hkey Hne Hnz Hm Hgood. destruct (decide (c2m = [])) as [->|Hnonempty].
  - unfold scan. simpl. rewrite Hkey. simpl.
    rewrite bool_decide_eq_true_2 by done. simpl.
    unfold metrics_getitem. by rewrite Hm.
  - destruct (scan_selects_best_nonzero args key c2m Hkey Hne Hnonempty Hnz)
      as (pc' & m' & v' & Hscan & Hin & Hm' & _).
    assert (v' ≠ 0) as Hv'.
    { apply (proj1 (Forall_forall _ _) Hnz) in Hin as (v'' & Hv'' & Hnz'').
      simpl in Hv''. congruence. }
    assert (at_least_as_good (search_metric_mode args) v v') as Hbetter.
    { by apply (proj1 (Forall_forall _ _) Hgood (pc', m') Hin). }
    unfold scan in *. rewrite scan_from_app, Hscan. simpl.
    rewrite Hkey. simpl. rewrite bool_decide_eq_true_2 by done.
    rewrite (bool_decide_eq_true_2 (v' ≠ 0)) by done. simpl.
    unfold metrics_getitem. rewrite Hm.
    by rewrite bool_decide_eq_true_2 by (by apply metric_fns_keeps).
Qed.

(** *** Instances *)

Import Fixtures.

Lemma full_conf_disjoint_witness :
  full_conf_of (args_with (Some "A") ModeMax) [("bs", JNum 32)] [("x", JNum 1)]
  = [("x", JNum 1); ("bs", JNum 32)]
  ∧ arg_list_of (env_with []) (full_conf_of (args_with (Some "A") ModeMax)
                                 [("bs", JNum 32)] [("x", JNum 1)])
    = ["--x"; "1"] ++ ["--bs"; "32"].
Proof.
  apply (full_conf_disjoint (env_with []) (args_with (Some "A") ModeMax)
           [("bs", JNum 32)] [("x", JNum 1)]).
  - reflexivity.
  - unfold dict_keys. simpl. apply NoDup_singleton.
  - unfold dict_keys. simpl. apply NoDup_singleton.
  - reflexivity.
Defined.


Lemma full_conf_device_witness :
  dict_get (full_conf_of (args_on_device "cuda") [("device", JStr "cpu")]
                         [("x", JNum 1)])
           "device" = Some (JStr "cuda").
Proof.
  apply (full_conf_device (args_on_device "cuda") [("device", JStr "cpu")]
           [("x", JNum 1)] "cuda").
  - reflexivity.
  - discriminate.
Defined.

Lemma trial_overlap_iff_witness :
  trial (env_with []) (args_with (Some "A") ModeMax)
        [("lr", JNum 3)] [("lr", JNum 1)] initial
  = (initial, inl (ValueError "Fixed arg shows up in search space.")).
Proof.
  apply (trial_overlap_iff (env_with []) (args_with (Some "A") ModeMax)
           [("lr", JNum 3)] [("lr", JNum 1)] initial).
  exists "lr". split; unfold dict_keys; simpl; left.
Defined.

Lemma main_launches_every_candidate_witness :
  launched (main (env_with [5; 9; 2]) (args_with (Some "A") ModeMax)
                 config_x initial).1
  = map (arg_list_for (env_with [5; 9; 2]) (args_with (Some "A") ModeMax)
                      [("bs", JNum 32)])
        [[("x", JNum 1)]; [("x", JNum 2)]; [("x", JNum 3)]].
Proof.
  apply (main_launches_every_candidate (env_with [5; 9; 2])
           (args_with (Some "A") ModeMax) config_x
           [("x", JList [JNum 1; JNum 2; JNum 3])] [("bs", JNum 32)]).
  - reflexivity.
  - reflexivity.
  - simpl. repeat constructor.
  - intros i a. by eexists.
  - intros i metrics_path. by eexists.
Defined.

Lemma main_trial_failure_witness :
  ∃ s, main (env_failing_at 1 [5; 9; 2]) (args_with (Some "A") ModeMax)
            config_x initial
       = (s, inl TrialFailure)
       ∧ launched s = [["--x"; "1"; "--bs"; "32"]; ["--x"; "2"; "--bs"; "32"]]
       ∧ written s = [].
Proof.
  apply (main_trial_failure (env_failing_at 1 [5; 9; 2])
           (args_with (Some "A") ModeMax) config_x
           [("x", JList [JNum 1; JNum 2; JNum 3])] [("bs", JNum 32)]
           [[("x", JNum 1)]] [("x", JNum 2)] [[("x", JNum 3)]] TrialFailure).
  - reflexivity.
  - reflexivity.
  - reflexivity.
  - simpl. repeat constructor.
  - intros i a Hi. simpl in Hi. assert (i = 0%nat) as -> by lia. by eexists.
  - intros i metrics_path Hi. by eexists.
  - reflexivity.
Defined.


Lemma main_returns_report_witness :
  truthy_str (search_metric (args_with (Some "A") ModeMax)) = true
  ∧ config_to_metrics
      (main (env_with [5; 9; 2]) (args_with (Some "A") ModeMax) config_x initial).1
    ≠ [].
Proof.
  destruct (main_returns_report (env_with [5; 9; 2]) (args_with (Some "A") ModeMax)
              config_x
              (main (env_with [5; 9; 2]) (args_with (Some "A") ModeMax)
                    config_x initial).1) as (Htruthy & Hnonempty & _).
  - vm_compute. reflexivity.
  - by split.
Defined.

Lemma main_no_candidates_witness :
  main (env_with []) (args_with None ModeMax) config_overlap_empty initial
  = (initial, inl (TypeError "cannot unpack non-iterable NoneType object")).
Proof.
  apply (main_no_candidates (env_with []) (args_with None ModeMax)
           config_overlap_empty [("lr", JList [])] [("lr", JNum 3)]);
    reflexivity.
Defined.

Lemma scan_best_of_nonzero_witness :
  ∃ pc m v,
    scan (args_with (Some "A") ModeMax) (collected [5; 9; 2])
    = inr (Some pc, Some v)
    ∧ (pc, m) ∈ collected [5; 9; 2] ∧ m !! "A" = Some v
    ∧ Forall (λ e, ∀ v', e.2 !! "A" = Some v' → v' ≤ v) (collected [5; 9; 2]).
Proof.
  apply (scan_best_of_nonzero (args_with (Some "A") ModeMax) "A"
           (collected [5; 9; 2])).
  - reflexivity.
  - discriminate.
  - discriminate.
  - repeat constructor; eexists; (split; [reflexivity | discriminate]).
Defined.

Lemma scan_missing_metric_witness :
  scan (args_with (Some "A") ModeMax)
       (collected [5] ++ [(("run1/metrics.json", "{'x': 2}"), {[ "B" := 9 ]})])
  = inl (KeyError "A").
Proof.
  apply (scan_missing_metric (args_with (Some "A") ModeMax) "A").
  - reflexivity.
  - discriminate.
  - apply Exists_cons_tl, Exists_cons_hd. reflexivity.
Defined.

Lemma scan_last_wins_ties_witness :
  scan (args_with (Some "A") ModeMax)
       (collected [5; 9] ++ [(("run2/metrics.json", "{'x': 3}"), {[ "A" := 9 ]})])
  = inr (Some ("run2/metrics.json", "{'x': 3}"), Some 9).
Proof.
  apply (scan_last_wins_ties (args_with (Some "A") ModeMax) "A" (collected [5; 9])).
  - reflexivity.
  - discriminate.
  - repeat constructor; eexists; (split; [reflexivity | discriminate]).
  - reflexivity.
  - apply Forall_cons.
    split; [intros v' Hv'; vm_compute in Hv'; injection Hv' as <-; by vm_compute|].
    apply Forall_cons.
    split; [intros v' Hv'; vm_compute in Hv'; injection Hv' as <-; by vm_compute|].
    apply Forall_nil_2.
Defined.
End SearchMore.
